(** * Inventory dashboard (app.py): stock calculation and safety-stock update

    A shallow embedding of the Streamlit script [app.py].  The script is run
    from top to bottom at every user interaction; what survives between two
    runs is the session state, the memoised query results and the database.

    - The two tables are row lists.  Their number columns are pandas columns
      of 64-bit integers: sums, differences and cumulative sums wrap around.
    - The rows of one item are ordered by the index array that NumPy's sort
      returns; the order it gives to rows with the same timestamp is not
      fixed by the script, so the sort is a parameter with its contract.
    - DataFrames are objects in a heap, addressed by location, because the
      script adds a column to a frame in place.
    - The script's effects (database, memos, session state, heap, widgets
      drawn on the page) are threaded by a small state/exception/writer
      monad. *)

From stdpp Require Import base option list strings pretty sorting.
From Stdlib Require Import ZArith Lia.

Local Open Scope string_scope.
Local Open Scope list_scope.
Local Open Scope Z_scope.

(** ** Data model *)

(** A value of the column 일자 after [pd.to_datetime]: a calendar date (years
    1 to 9999) and the time of day, which the table of line 146 does not
    show but by which the rows of one day are ordered. *)
Record Date := mkDate { year : nat; month : nat; day : nat; time : nat }.

(** A row of the table 재고내역:
    품번, 일자, 내역, 입고 수량, 출고 수량. *)
Record Transaction := mkTransaction {
  item_code : string;
  date : Date;
  description : string;
  inbound_qty : Z;
  outbound_qty : Z
}.

(** A row of the table 제품마스터: 품번, 품명, 안전재고. *)
Record MasterRow := mkMasterRow {
  master_code : string;
  master_name : string;
  master_safety : Z
}.

(** A value of the dictionary built by [to_dict('index')]:
    the keys 품명 and 안전재고. *)
Record ItemInfo := mkItemInfo {
  item_name : string;
  safety_stock : Z
}.

(** What [current_stock] and [available_stock] hold at run time: the Python
    integer 0 of line 120 and what is computed from it, or a NumPy 64-bit
    integer when line 122 has run. *)
Inductive Number :=
  | PyInt (z : Z)
  | NpInt64 (z : Z).

Global Instance Date_eq_dec : EqDecision Date.
Proof. solve_decision. Defined.
Global Instance Transaction_eq_dec : EqDecision Transaction.
Proof. solve_decision. Defined.
Global Instance MasterRow_eq_dec : EqDecision MasterRow.
Proof. solve_decision. Defined.
Global Instance ItemInfo_eq_dec : EqDecision ItemInfo.
Proof. solve_decision. Defined.
Global Instance Number_eq_dec : EqDecision Number.
Proof. solve_decision. Defined.

(** ** 64-bit integers *)

Definition int64_min : Z := -9223372036854775808.
Definition int64_max : Z := 9223372036854775807.

Definition int64_range (z : Z) : Prop := int64_min ≤ z ≤ int64_max.

(** The value an int64 operation leaves when the exact result is [z]. *)
Definition wrap64 (z : Z) : Z :=
  (z + 9223372036854775808) mod 18446744073709551616 - 9223372036854775808.

(** [int(x)], as in the f-strings of lines 130-136. *)
Definition int_of (x : Number) : Z :=
  match x with
  | PyInt z => z
  | NpInt64 z => z
  end.

(** ** Series and frame operations used by the script *)

(** Ascending order on timestamps, the key of [sort_values(by='일자')]. *)
Definition date_le (a b : Date) : Prop :=
  (year a < year b)%nat ∨
  (year a = year b ∧
    ((month a < month b)%nat ∨
     (month a = month b ∧
       ((day a < day b)%nat ∨ (day a = day b ∧ (time a ≤ time b)%nat))))).

Global Instance date_le_dec : RelDecision date_le.
Proof. intros a b. unfold date_le. apply _. Defined.

Definition tx_date_le (a b : Transaction) : Prop := date_le (date a) (date b).

Global Instance tx_date_le_dec : RelDecision tx_date_le.
Proof. intros a b. unfold tx_date_le. apply _. Defined.

(** [Series.sum()] of an int64 column: the accumulator starts at 0 and every
    addition wraps. *)
Definition series_sum (s : list Z) : Z :=
  fold_left (λ acc x, wrap64 (acc + x)) s 0.

(** [a - b] on two int64 series with the same index. *)
Definition series_sub (a b : list Z) : list Z :=
  zip_with (λ x y, wrap64 (x - y)) a b.

(** [Series.cumsum()] of an int64 series. *)
Fixpoint cumsum_from (acc : Z) (s : list Z) : list Z :=
  match s with
  | [] => []
  | x :: rest => wrap64 (acc + x) :: cumsum_from (wrap64 (acc + x)) rest
  end.

Definition cumsum (s : list Z) : list Z := cumsum_from 0 s.

(** [df[df['품번'] == code]]. *)
Definition filter_item (code : string) (df : list Transaction) : list Transaction :=
  filter (λ t, item_code t = code) df.

(** [take]: the rows at the places of an index array, in its order. *)
Definition take_rows {A} (indexer : list nat) (l : list A) : list A :=
  omap (λ i, l !! i) indexer.

(** The sort behind [sort_values]: NumPy's [argsort] of the key column.  It
    returns the places of the keys, each once, in an order in which the keys
    ascend.  Which of two equal keys comes first is left to the algorithm
    NumPy picks, so only this contract is assumed. *)
Class ArgSort := {
  argsort : list Date → list nat;
  argsort_Permutation : ∀ keys, argsort keys ≡ₚ seq 0 (length keys);
  argsort_Sorted : ∀ keys, Sorted date_le (take_rows (argsort keys) keys)
}.

(** An argsort that keeps rows with equal keys in their order: insertion of
    each key, from the last to the first, before the first key that is not
    smaller. *)
Fixpoint insert_by_date (p : nat * Date) (l : list (nat * Date)) : list (nat * Date) :=
  match l with
  | [] => [p]
  | q :: rest =>
      if decide (date_le p.2 q.2) then p :: q :: rest
      else q :: insert_by_date p rest
  end.

Definition stable_argsort (keys : list Date) : list nat :=
  (foldr insert_by_date [] (zip (seq 0 (length keys)) keys)).*1.

(** ['%Y-%m-%d']. *)
Definition two_digits (n : nat) : string :=
  if decide (n < 10)%nat then "0" +:+ pretty n else pretty n.

Definition four_digits (n : nat) : string :=
  if decide (n < 10)%nat then "000" +:+ pretty n
  else if decide (n < 100)%nat then "00" +:+ pretty n
  else if decide (n < 1000)%nat then "0" +:+ pretty n
  else pretty n.

Definition strftime (d : Date) : string :=
  four_digits (year d) +:+ "-" +:+ two_digits (month d) +:+ "-" +:+ two_digits (day d).

Section app.
Context `{numpy_sort : !ArgSort}.

(** [df.sort_values(by='일자', ascending=True)] on the rows. *)
Definition sort_values (df : list Transaction) : list Transaction :=
  take_rows (argsort (map date df)) df.

(** Lines 116-117: the rows of [item_transactions]. *)
Definition item_transactions (code : string) (inventory_df : list Transaction)
  : list Transaction :=
  sort_values (filter_item code inventory_df).

(** Lines 120-122: the Python integer 0, or the difference of two int64
    sums. *)
Definition current_stock (item_transactions : list Transaction) : Number :=
  if bool_decide (item_transactions = []) then PyInt 0
  else NpInt64 (wrap64 (series_sum (map inbound_qty item_transactions)
                        - series_sum (map outbound_qty item_transactions))).

(** Line 125.  The safety stock is a Python integer that came from an int64
    column or from the number input, so it is within the int64 range; the
    difference with a NumPy integer is again a NumPy integer and wraps. *)
Definition available_stock (current_stock : Number) (safety_stock : Z) : Number :=
  match current_stock with
  | PyInt c => PyInt (c - safety_stock)
  | NpInt64 c => NpInt64 (wrap64 (c - safety_stock))
  end.

(** Line 135: the condition under which the shortage banner is drawn. *)
Definition is_shortage (available_stock : Number) : bool :=
  bool_decide (int_of available_stock ≤ 0).

(** Line 142: the column 잔량. *)
Definition running_balance (item_transactions : list Transaction) : list Z :=
  cumsum (series_sub (map inbound_qty item_transactions)
                     (map outbound_qty item_transactions)).
(** ** The world of the script *)

(** A DataFrame object holding inventory rows; [balance] is the column 잔량,
    absent until line 142 assigns it. *)
Record Frame := mkFrame {
  rows : list Transaction;
  balance : option (list Z)
}.

(** The column 일자 of [display_df]: a date, and text after line 145. *)
Inductive DateCell :=
  | DateValue (d : Date)
  | DateText (s : string).

(** A row of [display_df]: 일자, 내역, 입고 수량, 출고 수량, 잔량. *)
Record DisplayRow := mkDisplayRow {
  disp_date : DateCell;
  disp_description : string;
  disp_inbound : Z;
  disp_outbound : Z;
  disp_balance : Z
}.

Inductive Obj :=
  | InventoryFrame (f : Frame)
  | DisplayFrame (d : list DisplayRow).

Definition loc := nat.

Inductive Exn :=
  | DbError
  | KeyError (key : string)
  | ValueError
  | AttributeError
  | StreamlitAPIException.

(** What the script draws on the page (headers and rules are left out). *)
Inductive Element :=
  | Success (code : string) (value : Z)            (* line 94 *)
  | ErrorDbUpdate (e : Exn)                        (* line 96 *)
  | Metrics (current safety available : Z)         (* lines 130-132 *)
  | ErrorShortage (current safety : Z)             (* line 136 *)
  | Dataframe (table : list DisplayRow)            (* line 146 *)
  | WarningNoHistory                               (* line 148 *)
  | InfoSelectItem                                 (* line 151 *)
  | ErrorLoad (e : Exn)                            (* line 154 *)
  | InfoSecrets.                                   (* line 155 *)

Global Instance Frame_eq_dec : EqDecision Frame.
Proof. solve_decision. Defined.
Global Instance DateCell_eq_dec : EqDecision DateCell.
Proof. solve_decision. Defined.
Global Instance DisplayRow_eq_dec : EqDecision DisplayRow.
Proof. solve_decision. Defined.
Global Instance Obj_eq_dec : EqDecision Obj.
Proof. solve_decision. Defined.
Global Instance Exn_eq_dec : EqDecision Exn.
Proof. solve_decision. Defined.
Global Instance Element_eq_dec : EqDecision Element.
Proof. solve_decision. Defined.

(** Everything that outlives a statement of the script.
    - [db_master], [db_inventory]: the tables behind [conn];
    - [cache]: the memo of [load_data_from_db] kept by [st.cache_data];
    - [master_query_memo], [inventory_query_memo]: the memos that
      [conn.query(..., ttl=300)] keeps for the queries of lines 37 and 41;
    - [master_data], [inventory_data]: the two entries of [st.session_state]
      ([None]: the key is not in the session state); [master_data] is a dict
      in insertion order, [inventory_data] a reference to a frame;
    - [heap]: the DataFrame objects. *)
Record World := mkWorld {
  db_master : list MasterRow;
  db_inventory : list Transaction;
  cache : option (list MasterRow * list Transaction);
  master_query_memo : option (list MasterRow);
  inventory_query_memo : option (list Transaction);
  master_data : option (list (string * ItemInfo));
  inventory_data : option loc;
  heap : list Obj
}.

(** What a run receives from outside: whether the connection of line 18 can
    be set up, whether the database answers each of the two queries and the
    write, whether the 300 s of each memo have passed, and the state of the
    widgets. *)
Record Inputs := mkInputs {
  connection_ok : bool;
  master_query_ok : bool;
  inventory_query_ok : bool;
  db_write_ok : bool;
  cache_expired : bool;
  master_memo_expired : bool;
  inventory_memo_expired : bool;
  sidebar_choice : string;
  typed_safety_stock : option Z;
  save_clicked : bool;
  main_choice : string
}.

(** ** The monad: state, exceptions, and the page drawn so far *)

Inductive Outcome (A : Type) :=
  | Return (a : A)
  | Raise (e : Exn).
Global Arguments Return {A} a.
Global Arguments Raise {A} e.

Definition M (A : Type) : Type := World → Outcome A * World * list Element.

Global Instance M_ret : MRet M := λ A a w, (Return a, w, []).

Global Instance M_bind : MBind M := λ A B f m w,
  match m w with
  | (Return a, w1, out1) =>
      match f a w1 with
      | (r, w2, out2) => (r, w2, out1 ++ out2)
      end
  | (Raise e, w1, out1) => (Raise e, w1, out1)
  end.

Definition raise {A} (e : Exn) : M A := λ w, (Raise e, w, []).

(** [try: body except Exception as e: handler e]. *)
Definition try_except (body : M unit) (handler : Exn → M unit) : M unit := λ w,
  match body w with
  | (Return a, w1, out1) => (Return a, w1, out1)
  | (Raise e, w1, out1) =>
      match handler e w1 with
      | (r, w2, out2) => (r, w2, out1 ++ out2)
      end
  end.

Definition get_world : M World := λ w, (Return w, w, []).
Definition modify_world (f : World → World) : M unit := λ w, (Return tt, f w, []).
Definition draw (e : Element) : M unit := λ w, (Return tt, w, [e]).

Definition when (b : bool) (m : M unit) : M unit := if b then m else mret tt.

(** *** Field updates *)

Definition set_db_master (v : list MasterRow) (w : World) : World :=
  mkWorld v (db_inventory w) (cache w) (master_query_memo w) (inventory_query_memo w)
          (master_data w) (inventory_data w) (heap w).
Definition set_cache (v : option (list MasterRow * list Transaction)) (w : World) : World :=
  mkWorld (db_master w) (db_inventory w) v (master_query_memo w) (inventory_query_memo w)
          (master_data w) (inventory_data w) (heap w).
Definition set_master_query_memo (v : option (list MasterRow)) (w : World) : World :=
  mkWorld (db_master w) (db_inventory w) (cache w) v (inventory_query_memo w)
          (master_data w) (inventory_data w) (heap w).
Definition set_inventory_query_memo (v : option (list Transaction)) (w : World) : World :=
  mkWorld (db_master w) (db_inventory w) (cache w) (master_query_memo w) v
          (master_data w) (inventory_data w) (heap w).
Definition set_master_data (v : option (list (string * ItemInfo))) (w : World) : World :=
  mkWorld (db_master w) (db_inventory w) (cache w) (master_query_memo w)
          (inventory_query_memo w) v (inventory_data w) (heap w).
Definition set_inventory_data (v : option loc) (w : World) : World :=
  mkWorld (db_master w) (db_inventory w) (cache w) (master_query_memo w)
          (inventory_query_memo w) (master_data w) v (heap w).
Definition set_heap (v : list Obj) (w : World) : World :=
  mkWorld (db_master w) (db_inventory w) (cache w) (master_query_memo w)
          (inventory_query_memo w) (master_data w) (inventory_data w) v.

(** [st.cache_data.clear()]: every memo of [st.cache_data] is dropped, the
    one of [load_data_from_db] and the two of [conn.query]. *)
Definition clear_cache_data (w : World) : World :=
  mkWorld (db_master w) (db_inventory w) None None None
          (master_data w) (inventory_data w) (heap w).

(** *** DataFrame objects *)

(** A new object; its location is the next free one. *)
Definition alloc (o : Obj) : M loc := λ w,
  (Return (length (heap w)), set_heap (heap w ++ [o]) w, []).

Definition read_frame (l : loc) : M Frame :=
  w ← get_world;
  match heap w !! l with
  | Some (InventoryFrame f) => mret f
  | _ => raise AttributeError
  end.

Definition read_display (l : loc) : M (list DisplayRow) :=
  w ← get_world;
  match heap w !! l with
  | Some (DisplayFrame d) => mret d
  | _ => raise AttributeError
  end.

Definition write_obj (l : loc) (o : Obj) : M unit :=
  modify_world (λ w, set_heap (<[l := o]> (heap w)) w).

(** ** Database access (lines 21-46) *)

(** The SQL statement of line 27 on one row. *)
Definition update_row (item_code : string) (safety_stock : Z) (r : MasterRow) : MasterRow :=
  if decide (master_code r = item_code)
  then mkMasterRow (master_code r) (master_name r) safety_stock
  else r.

(** Lines 21-30.  The statement and the commit either both happen or the
    session raises and the table keeps its rows. *)
Definition update_safety_stock_in_db (inp : Inputs) (item_code : string)
    (safety_stock : Z) : M unit :=
  if db_write_ok inp
  then modify_world (λ w, set_db_master (map (update_row item_code safety_stock) (db_master w)) w)
  else raise DbError.

(** Line 37: [conn.query(item_master_query, ttl=300)].  A result memoised
    less than 300 s ago is returned as it is; otherwise the database is
    asked, and its answer memoised. *)
Definition query_master (inp : Inputs) : M (list MasterRow) :=
  w ← get_world;
  let ask : M (list MasterRow) :=
    if master_query_ok inp
    then modify_world (set_master_query_memo (Some (db_master w)));;
         mret (db_master w)
    else raise DbError in
  match master_query_memo w with
  | Some memo => if master_memo_expired inp then ask else mret memo
  | None => ask
  end.

(** Line 41: [conn.query(inventory_query, ttl=300)]. *)
Definition query_inventory (inp : Inputs) : M (list Transaction) :=
  w ← get_world;
  let ask : M (list Transaction) :=
    if inventory_query_ok inp
    then modify_world (set_inventory_query_memo (Some (db_inventory w)));;
         mret (db_inventory w)
    else raise DbError in
  match inventory_query_memo w with
  | Some memo => if inventory_memo_expired inp then ask else mret memo
  | None => ask
  end.

(** The body of [load_data_from_db] (lines 35-46).  The column 일자 holds
    timestamps from the start, so lines 43-44 have nothing to convert. *)
Definition query_db (inp : Inputs) : M (list MasterRow * list Transaction) :=
  item_master_df ← query_master inp;
  inventory_df ← query_inventory inp;
  mret (item_master_df, inventory_df).

(** Lines 33-46, with the memo of [st.cache_data(ttl=300)]: the value the
    body returns is memoised, an exception is not. *)
Definition load_data_from_db (inp : Inputs) : M (list MasterRow * list Transaction) :=
  w ← get_world;
  let miss : M (list MasterRow * list Transaction) :=
    loaded ← query_db inp;
    modify_world (set_cache (Some loaded));;
    mret loaded in
  match cache w with
  | Some loaded => if cache_expired inp then miss else mret loaded
  | None => miss
  end.

(** ** Session state (lines 51-58) *)

(** [master_df.set_index('품번').to_dict('index')]; pandas refuses an index
    with a repeated label. *)
Definition to_dict_index (master_df : list MasterRow) : M (list (string * ItemInfo)) :=
  if decide (NoDup (map master_code master_df))
  then mret (map (λ r, (master_code r, mkItemInfo (master_name r) (master_safety r))) master_df)
  else raise ValueError.

(** [st.session_state.master_data]: the dict behind the reference, as it is
    now.  [master_data_dict] of line 57 is the same object. *)
Definition session_master_data : M (list (string * ItemInfo)) :=
  w ← get_world;
  match master_data w with
  | Some d => mret d
  | None => raise AttributeError
  end.

(** [st.session_state.inventory_data]. *)
Definition session_inventory_data : M loc :=
  w ← get_world;
  match inventory_data w with
  | Some l => mret l
  | None => raise AttributeError
  end.

(** Lines 51-55.  The memo hands out its own copy of the frames, so the frame
    kept in the session is a new object. *)
Definition session_init (inp : Inputs) : M unit :=
  w ← get_world;
  match master_data w with
  | Some _ => mret tt
  | None =>
      loaded ← load_data_from_db inp;
      d ← to_dict_index loaded.1;
      modify_world (set_master_data (Some d));;
      l ← alloc (InventoryFrame (mkFrame loaded.2 None));
      modify_world (set_inventory_data (Some l))
  end.

(** ** Dict operations *)

(** [d[key]]. *)
Fixpoint dict_getitem (d : list (string * ItemInfo)) (key : string) : option ItemInfo :=
  match d with
  | [] => None
  | (k, v) :: rest => if decide (k = key) then Some v else dict_getitem rest key
  end.

(** [d[key]['안전재고'] = value]; [None] stands for the KeyError. *)
Fixpoint dict_set_safety (d : list (string * ItemInfo)) (key : string) (value : Z)
  : option (list (string * ItemInfo)) :=
  match d with
  | [] => None
  | (k, v) :: rest =>
      if decide (k = key) then Some ((k, mkItemInfo (item_name v) value) :: rest)
      else cons (k, v) <$> dict_set_safety rest key value
  end.

Definition getitem (d : list (string * ItemInfo)) (key : string) : M ItemInfo :=
  match dict_getitem d key with
  | Some v => mret v
  | None => raise (KeyError key)
  end.

(** Line 90. *)
Definition session_set_safety (key : string) (value : Z) : M unit :=
  d ← session_master_data;
  match dict_set_safety d key value with
  | Some d' => modify_world (set_master_data (Some d'))
  | None => raise (KeyError key)
  end.

(** ** Widgets *)

(** [st.selectbox]: the user's choice when it is one of the options, the
    first option otherwise, nothing when there is no option. *)
Definition selectbox (options : list string) (choice : string) : option string :=
  if decide (choice ∈ options) then Some choice else head options.

(** The largest integer the browser holds exactly, 2^53 - 1. *)
Definition js_max_safe : Z := 9007199254740991.

(** [st.number_input] for integers with [min_value] and no [max_value]: the
    default must not be below [min_value] and must be an integer the browser
    holds exactly; a typed value outside these bounds is not kept, the widget
    falls back to the default. *)
Definition number_input (min_value value : Z) (typed : option Z) : M Z :=
  if decide (value < min_value) then raise StreamlitAPIException
  else if decide (js_max_safe < value) then raise StreamlitAPIException
  else match typed with
       | Some v => if decide (min_value ≤ v ≤ js_max_safe) then mret v else mret value
       | None => mret value
       end.

(** Python's truth value of a widget result that is a string or [None]. *)
Definition truthy (s : option string) : bool :=
  match s with
  | Some c => bool_decide (c ≠ "")
  | None => false
  end.

(** ** Sidebar (lines 64-96) *)

(** Lines 84-96, the body of [if st.button("안전재고 저장")]. *)
Definition save_button_handler (inp : Inputs) (selected_item : string)
    (new_safety_stock : Z) : M unit :=
  try_except
    (update_safety_stock_in_db inp selected_item new_safety_stock;;
     session_set_safety selected_item new_safety_stock;;
     modify_world clear_cache_data;;
     draw (Success selected_item new_safety_stock))
    (λ e, draw (ErrorDbUpdate e)).

Definition sidebar (inp : Inputs) : M unit :=
  d ← session_master_data;
  let item_list_for_setting := map fst d in
  let selected_item := selectbox item_list_for_setting (sidebar_choice inp) in
  match selected_item with
  | Some code =>
      when (truthy selected_item)
        (d ← session_master_data;
         info ← getitem d code;
         let current_safety_stock := safety_stock info in
         new_safety_stock ← number_input 0 current_safety_stock (typed_safety_stock inp);
         when (save_clicked inp) (save_button_handler inp code new_safety_stock))
  | None => mret tt
  end.

(** ** Frame methods: each returns a new object *)

(** [df[df['품번'] == code]]. *)
Definition frame_filter (code : string) (f : Frame) : Frame :=
  match balance f with
  | None => mkFrame (filter_item code (rows f)) None
  | Some b =>
      let kept := filter (λ p, item_code p.1 = code) (zip (rows f) b) in
      mkFrame kept.*1 (Some kept.*2)
  end.

(** [df.sort_values(by='일자', ascending=True)]: every column is taken in
    the order of the index array. *)
Definition frame_sort_values (f : Frame) : Frame :=
  let indexer := argsort (map date (rows f)) in
  mkFrame (take_rows indexer (rows f)) (take_rows indexer <$> balance f).

Definition getitem_mask (df : loc) (code : string) : M loc :=
  f ← read_frame df;
  alloc (InventoryFrame (frame_filter code f)).

Definition copy (df : loc) : M loc :=
  f ← read_frame df;
  alloc (InventoryFrame f).

Definition sort_values_by_date (df : loc) : M loc :=
  f ← read_frame df;
  alloc (InventoryFrame (frame_sort_values f)).

(** [df['잔량'] = series]: the one statement that changes a frame in place. *)
Definition set_balance_column (df : loc) (series : list Z) : M unit :=
  f ← read_frame df;
  write_obj df (InventoryFrame (mkFrame (rows f) (Some series))).

Definition display_rows (txs : list Transaction) (b : list Z) : list DisplayRow :=
  zip_with (λ t z, mkDisplayRow (DateValue (date t)) (description t)
                                (inbound_qty t) (outbound_qty t) z)
           txs b.

(** [df[['일자', '내역', '입고 수량', '출고 수량', '잔량']]]. *)
Definition getitem_display_columns (df : loc) : M loc :=
  f ← read_frame df;
  match balance f with
  | Some b =>
      alloc (DisplayFrame (display_rows (rows f) b))
  | None => raise (KeyError "잔량")
  end.

(** [df.reset_index(drop=True)]; the row labels are not part of the model. *)
Definition reset_index (df : loc) : M loc :=
  d ← read_display df;
  alloc (DisplayFrame d).

Definition is_date_value (c : DateCell) : bool :=
  match c with DateValue _ => true | DateText _ => false end.

Definition format_row (r : DisplayRow) : DisplayRow :=
  mkDisplayRow
    (match disp_date r with DateValue d => DateText (strftime d) | c => c end)
    (disp_description r) (disp_inbound r) (disp_outbound r) (disp_balance r).

(** Line 145: [df['일자'] = df['일자'].dt.strftime('%Y-%m-%d')]; the accessor
    [.dt] exists on a column of dates only. *)
Definition format_date_column (df : loc) : M unit :=
  d ← read_display df;
  if forallb (λ r, is_date_value (disp_date r)) d
  then write_obj df (DisplayFrame (map format_row d))
  else raise AttributeError.

(** ** Main screen (lines 103-151) *)

Definition placeholder : string := "선택하세요".

Definition main_view (inp : Inputs) (inventory_df : loc) : M unit :=
  d ← session_master_data;
  let available_items := map fst d in
  let options := placeholder :: available_items in
  let item_code_input := selectbox options (main_choice inp) in
  match item_code_input with
  | Some code =>
      if truthy item_code_input && bool_decide (code ≠ placeholder) then
        d ← session_master_data;
        item_info ← getitem d code;
        let safety_stock := safety_stock item_info in
        filtered ← getitem_mask inventory_df code;
        copied ← copy filtered;
        item_transactions ← sort_values_by_date copied;
        f ← read_frame item_transactions;
        let current_stock := current_stock (rows f) in
        let available_stock := available_stock current_stock safety_stock in
        draw (Metrics (int_of current_stock) safety_stock (int_of available_stock));;
        when (is_shortage available_stock)
          (draw (ErrorShortage (int_of current_stock) safety_stock));;
        if bool_decide (rows f ≠ []) then
          set_balance_column item_transactions (running_balance (rows f));;
          selected ← getitem_display_columns item_transactions;
          display_df ← reset_index selected;
          format_date_column display_df;;
          table ← read_display display_df;
          draw (Dataframe table)
        else
          draw WarningNoHistory
      else draw InfoSelectItem
  | None => draw InfoSelectItem
  end.

(** ** The script: one run *)

(** Line 18 sets up the connection outside the [try]: when it cannot (no
    usable configuration), the run ends there with the exception.  Lines
    49-155 follow. *)
Definition script (inp : Inputs) : M unit :=
  if connection_ok inp then
    try_except
      (session_init inp;;
       _ ← session_master_data;
       inventory_df ← session_inventory_data;
       sidebar inp;;
       main_view inp inventory_df)
      (λ e, draw (ErrorLoad e);; draw InfoSecrets)
  else raise StreamlitAPIException.

(** * Vocabulary of the statements *)

(** The sums the specification speaks of, in unbounded integers. *)
Definition total (f : Transaction → Z) (txs : list Transaction) : Z :=
  foldr (λ t acc, f t + acc) 0 txs.

(** The running balance before row [i]: 0 before the first row. *)
Definition balance_before (txs : list Transaction) (i : nat) : Z :=
  match i with
  | O => 0
  | S j => default 0 (running_balance txs !! j)
  end.

(** The rows of [item_transactions] when the frame of the session is [f]. *)
Definition item_rows (code : string) (f : Frame) : list Transaction :=
  rows (frame_sort_values (frame_filter code f)).

(** The table drawn at line 146. *)
Definition view_table (txs : list Transaction) : list DisplayRow :=
  map format_row (display_rows txs (running_balance txs)).

(** The page drawn by lines 127-148. *)
Definition view_page (safety : Z) (txs : list Transaction) : list Element :=
  let current := current_stock txs in
  let available := available_stock current safety in
  Metrics (int_of current) safety (int_of available)
  :: (if is_shortage available then [ErrorShortage (int_of current) safety] else [])
  ++ [if bool_decide (txs ≠ []) then Dataframe (view_table txs) else WarningNoHistory].

(** The objects created by lines 116-145, in the order of their creation. *)
Definition view_objects (code : string) (f : Frame) : list Obj :=
  let filtered := frame_filter code f in
  let sorted := frame_sort_values filtered in
  let txs := rows sorted in
  if bool_decide (txs ≠ []) then
    [ InventoryFrame filtered; InventoryFrame filtered;
      InventoryFrame (mkFrame txs (Some (running_balance txs)));
      DisplayFrame (display_rows txs (running_balance txs));
      DisplayFrame (view_table txs) ]
  else
    [ InventoryFrame filtered; InventoryFrame filtered; InventoryFrame sorted ].

(** The item [code] is selected on the main screen of a session that holds
    it, and the session's frame is the object [f] at [inventory_df]. *)
Definition viewing (inp : Inputs) (inventory_df : loc) (w : World)
    (code : string) (info : ItemInfo) (f : Frame) : Prop :=
  (∃ d, master_data w = Some d ∧ dict_getitem d code = Some info)
  ∧ main_choice inp = code
  ∧ code ≠ ""
  ∧ code ≠ placeholder
  ∧ heap w !! inventory_df = Some (InventoryFrame f).

(** The entry of the in-memory Item Master for [code], if any. *)
Definition item_master_lookup (w : World) (code : string) : option ItemInfo :=
  d ← master_data w; dict_getitem d code.

(** The world after the statement of line 27 has been committed. *)
Definition committed (code : string) (value : Z) (w : World) : World :=
  set_db_master (map (update_row code value) (db_master w)) w.

(** What a read-only statement leaves as it was: the database, the memos,
    the two entries of the session state, and every object that existed. *)
Definition unchanged_by (w w' : World) : Prop :=
  master_data w' = master_data w
  ∧ inventory_data w' = inventory_data w
  ∧ db_master w' = db_master w
  ∧ db_inventory w' = db_inventory w
  ∧ cache w' = cache w
  ∧ master_query_memo w' = master_query_memo w
  ∧ inventory_query_memo w' = inventory_query_memo w
  ∧ ∀ (l : loc) (o : Obj), heap w !! l = Some o → heap w' !! l = Some o.

(** The item codes of a dict with the names they carry, in dict order. *)
Definition codes_and_names (d : list (string * ItemInfo)) : list (string * string) :=
  map (λ p, (p.1, item_name p.2)) d.

(** What no run of the script undoes: the stored transactions, the objects
    that exist, and, once the session is initialised, its reference to the
    transaction frame and the codes and names of its Item Master. *)
Definition session_kept (w w' : World) : Prop :=
  db_inventory w' = db_inventory w
  ∧ (∀ (l : loc) (o : Obj), heap w !! l = Some o → heap w' !! l = Some o)
  ∧ ∀ d, master_data w = Some d →
      inventory_data w' = inventory_data w
      ∧ ∃ d', master_data w' = Some d' ∧ codes_and_names d' = codes_and_names d.

(** No negative safety stock, in the stored table or in the session. *)
Definition nonneg_safety (w : World) : Prop :=
  Forall (λ r, 0 ≤ master_safety r) (db_master w)
  ∧ ∀ d, master_data w = Some d → Forall (λ p, 0 ≤ safety_stock p.2) d.

(** The value the sidebar passes to the save handler (lines 75-81). *)
Definition entered_value (inp : Inputs) (current_safety_stock : Z) : Z :=
  match typed_safety_stock inp with
  | Some v => if decide (0 ≤ v ≤ js_max_safe) then v else current_safety_stock
  | None => current_safety_stock
  end.

(** A safety stock the number input accepts as its default. *)
Definition accepted_default (safety_stock : Z) : Prop :=
  0 ≤ safety_stock ≤ js_max_safe.

(** The master table holds a row of the item code. *)
Definition has_row (code : string) (master_df : list MasterRow) : Prop :=
  ∃ r : MasterRow, r ∈ master_df ∧ master_code r = code.

(** The stored transactions and the objects that exist are as they were. *)
Definition store_kept (w w' : World) : Prop :=
  db_inventory w' = db_inventory w
  ∧ ∀ (l : loc) (o : Obj), heap w !! l = Some o → heap w' !! l = Some o.

(** A statement keeps a relation when its final world is related to its
    initial world, whatever its outcome. *)
Definition keeps (R : World → World → Prop) {A} (m : M A) : Prop :=
  ∀ w : World, R w (m w).1.2.

(** The dict built from the rows of the master table (line 54). *)
Definition dict_of_rows (master_df : list MasterRow) : list (string * ItemInfo) :=
  map (λ r, (master_code r, mkItemInfo (master_name r) (master_safety r))) master_df.

(** ** Example data *)

Definition scenario : list Transaction :=
  [ mkTransaction "P-1" (mkDate 2024 1 1 0) "입고" 100 0;
    mkTransaction "P-1" (mkDate 2024 1 5 0) "출고" 0 30;
    mkTransaction "P-1" (mkDate 2024 1 10 0) "입고" 20 0 ].

Definition demo_inventory : list Transaction :=
  mkTransaction "P-3" (mkDate 2024 1 2 0) "입고" 5 0 :: reverse scenario.

Definition demo_master : list MasterRow :=
  [ mkMasterRow "P-1" "볼트" 50; mkMasterRow "P-2" "너트" 0;
    mkMasterRow "P-3" "와셔" 100 ].

Definition demo_dict : list (string * ItemInfo) :=
  [ ("P-1", mkItemInfo "볼트" 50); ("P-2", mkItemInfo "너트" 0);
    ("P-3", mkItemInfo "와셔" 100) ].

Definition fresh_world : World :=
  mkWorld demo_master demo_inventory None None None None None [].

(** A session as [session_init] leaves it. *)
Definition demo_world : World :=
  mkWorld demo_master demo_inventory (Some (demo_master, demo_inventory))
    (Some demo_master) (Some demo_inventory)
    (Some demo_dict) (Some 0%nat)
    [ InventoryFrame (mkFrame demo_inventory None) ].

(** The database answers, no memo has expired, nothing is typed or clicked. *)
Definition demo_inputs (choice : string) : Inputs :=
  mkInputs true true true true false false false "P-1" None false choice.

(** The save button is clicked with [value] typed for the item [code], which
    is also selected on the main screen. *)
Definition save_inputs (write_ok : bool) (code : string) (value : Z) : Inputs :=
  mkInputs true true true write_ok false false false code (Some value) true code.

(** Nothing of the database can be reached. *)
Definition offline_inputs : Inputs :=
  mkInputs true false false false false false false "" None false "".

Definition write_fails : Inputs := save_inputs false "P-1" 80.

(** Two receipts whose quantities add up to 2^63. *)
Definition overflow_table : list Transaction :=
  [ mkTransaction "P-1" (mkDate 2024 1 1 0) "입고" 9223372036854775807 0;
    mkTransaction "P-1" (mkDate 2024 1 2 0) "입고" 1 0 ].

Definition overflow_world : World :=
  mkWorld [mkMasterRow "P-1" "볼트" 1] overflow_table None None None
    (Some [("P-1", mkItemInfo "볼트" 1)]) (Some 0%nat)
    [ InventoryFrame (mkFrame overflow_table None) ].

(** The session of [demo_world] after the row of P-1 has been deleted from
    the stored master table. *)
Definition stale_world : World :=
  mkWorld [ mkMasterRow "P-2" "너트" 0; mkMasterRow "P-3" "와셔" 100 ] demo_inventory
    (Some (demo_master, demo_inventory)) (Some demo_master) (Some demo_inventory)
    (Some demo_dict) (Some 0%nat)
    [ InventoryFrame (mkFrame demo_inventory None) ].

(** * Properties of the stock calculation *)

Section int64.

Lemma wrap64_range (z : Z) : int64_range (wrap64 z).
Proof.
  unfold int64_range, int64_min, int64_max, wrap64.
  pose proof (Z.mod_pos_bound (z + 9223372036854775808) 18446744073709551616).
  lia.
Qed.

Lemma wrap64_id (z : Z) : int64_range z → wrap64 z = z.
Proof.
  unfold int64_range, int64_min, int64_max, wrap64. intros Hz.
  rewrite Z.mod_small by lia. lia.
Qed.

Lemma wrap64_add_l (a b : Z) : wrap64 (wrap64 a + b) = wrap64 (a + b).
Proof.
  unfold wrap64. f_equal.
  replace ((a + 9223372036854775808) mod 18446744073709551616 - 9223372036854775808
           + b + 9223372036854775808)
    with ((a + 9223372036854775808) mod 18446744073709551616 + b) by lia.
  rewrite Z.add_mod_idemp_l by done. f_equal. lia.
Qed.

Lemma wrap64_add_r (a b : Z) : wrap64 (a + wrap64 b) = wrap64 (a + b).
Proof. by rewrite Z.add_comm, wrap64_add_l, Z.add_comm. Qed.

Lemma wrap64_sub_l (a b : Z) : wrap64 (wrap64 a - b) = wrap64 (a - b).
Proof. rewrite <- !Z.add_opp_r. apply wrap64_add_l. Qed.

Lemma wrap64_sub_r (a b : Z) : wrap64 (a - wrap64 b) = wrap64 (a - b).
Proof.
  unfold wrap64. f_equal.
  set (x := (b + 9223372036854775808) mod 18446744073709551616).
  replace (a - (x - 9223372036854775808) + 9223372036854775808)
    with (a + 18446744073709551616 - x) by lia.
  subst x. rewrite Zminus_mod_idemp_r. f_equal. lia.
Qed.

Lemma wrap64_add_sub (x a b : Z) : wrap64 (wrap64 x + a - b) = wrap64 (x + a - b).
Proof.
  replace (wrap64 x + a - b) with (wrap64 x + (a - b)) by lia.
  rewrite wrap64_add_l. f_equal. lia.
Qed.

Lemma wrap64_int_of (z : Z) : wrap64 (wrap64 z) = wrap64 z.
Proof. apply wrap64_id, wrap64_range. Qed.

End int64.

Section series.

Lemma fold_left_wrap (s : list Z) (a : Z) :
  fold_left (λ acc x, wrap64 (acc + x)) s (wrap64 a) = wrap64 (a + foldr Z.add 0 s).
Proof.
  revert a. induction s as [|x s IH]; intros a; simpl.
  - by rewrite Z.add_0_r.
  - rewrite wrap64_add_l, IH. f_equal. lia.
Qed.

Lemma series_sum_wrap (s : list Z) : series_sum s = wrap64 (foldr Z.add 0 s).
Proof. exact (fold_left_wrap s 0). Qed.

Lemma foldr_add_column (f : Transaction → Z) (txs : list Transaction) :
  foldr Z.add 0 (map f txs) = total f txs.
Proof. induction txs as [|t txs IH]; simpl; [done|]. by rewrite IH. Qed.

Lemma series_sum_column (f : Transaction → Z) (txs : list Transaction) :
  series_sum (map f txs) = wrap64 (total f txs).
Proof. by rewrite series_sum_wrap, foldr_add_column. Qed.

Global Instance total_Permutation (f : Transaction → Z) :
  Proper ((≡ₚ) ==> (=)) (total f).
Proof.
  intros l1 l2 Hp. induction Hp; simpl; lia.
Qed.

Lemma series_sub_columns (txs : list Transaction) :
  series_sub (map inbound_qty txs) (map outbound_qty txs)
  = map (λ t, wrap64 (inbound_qty t - outbound_qty t)) txs.
Proof.
  unfold series_sub. induction txs as [|t txs IH]; simpl; [done|]. by rewrite IH.
Qed.

Lemma length_cumsum_from (acc : Z) (s : list Z) :
  length (cumsum_from acc s) = length s.
Proof. revert acc. induction s as [|x s IH]; intros acc; simpl; [done|]. by rewrite IH. Qed.

(** Each value is the value before it (the seed, for the first) plus the
    term at its place, wrapped. *)
Lemma cumsum_from_lookup (s : list Z) (acc : Z) (i : nat) (x : Z) :
  s !! i = Some x →
  cumsum_from acc s !! i
  = Some (wrap64 (match i with
                  | O => acc
                  | S j => default 0 (cumsum_from acc s !! j)
                  end + x)).
Proof.
  revert acc i. induction s as [|y s IH]; intros acc i Hi; [done|].
  destruct i as [|i]; simpl in *.
  - by inversion Hi.
  - rewrite (IH _ _ Hi). destruct i as [|i]; simpl; [done|].
    destruct (lookup_lt_is_Some_2 (cumsum_from (wrap64 (acc + y)) s) i) as [z Hz].
    { rewrite length_cumsum_from. apply lookup_lt_Some in Hi. lia. }
    by rewrite Hz.
Qed.

Lemma cumsum_from_prefix (s : list Z) (a : Z) (i : nat) :
  (i < length s)%nat →
  cumsum_from (wrap64 a) s !! i = Some (wrap64 (a + foldr Z.add 0 (take (S i) s))).
Proof.
  revert a i. induction s as [|x s IH]; intros a i Hi; simpl in Hi; [lia|].
  destruct i as [|i].
  - simpl. rewrite wrap64_add_l. do 2 f_equal. lia.
  - change (cumsum_from (wrap64 a) (x :: s) !! S i)
      with (cumsum_from (wrap64 (wrap64 a + x)) s !! i).
    rewrite wrap64_add_l, IH by lia.
    change (take (S (S i)) (x :: s)) with (x :: take (S i) s). simpl.
    do 2 f_equal. lia.
Qed.

Lemma foldr_add_wrapped (g : Transaction → Z) (txs : list Transaction) (a : Z) :
  wrap64 (a + foldr Z.add 0 (map (λ t, wrap64 (g t)) txs)) = wrap64 (a + total g txs).
Proof.
  revert a. induction txs as [|t txs IH]; intros a; simpl; [done|].
  replace (a + (wrap64 (g t) + foldr Z.add 0 (map (λ t, wrap64 (g t)) txs)))
    with (wrap64 (g t) + (a + foldr Z.add 0 (map (λ t, wrap64 (g t)) txs))) by lia.
  rewrite wrap64_add_l.
  replace (g t + (a + foldr Z.add 0 (map (λ t, wrap64 (g t)) txs)))
    with ((g t + a) + foldr Z.add 0 (map (λ t, wrap64 (g t)) txs)) by lia.
  rewrite IH. f_equal. lia.
Qed.

Lemma total_sub (txs : list Transaction) :
  total (λ t, inbound_qty t - outbound_qty t) txs
  = total inbound_qty txs - total outbound_qty txs.
Proof. induction txs as [|t txs IH]; simpl; lia. Qed.

Lemma total_app (f : Transaction → Z) (l1 l2 : list Transaction) :
  total f (l1 ++ l2) = total f l1 + total f l2.
Proof. induction l1 as [|t l1 IH]; simpl; lia. Qed.

(** The running balance at row [i], as one wrapped sum. *)
Lemma running_balance_lookup (txs : list Transaction) (i : nat) :
  (i < length txs)%nat →
  running_balance txs !! i
  = Some (wrap64 (total inbound_qty (take (S i) txs)
                  - total outbound_qty (take (S i) txs))).
Proof.
  intros Hi. unfold running_balance, cumsum. rewrite series_sub_columns.
  rewrite (cumsum_from_prefix _ 0) by (by rewrite length_map).
  rewrite <- total_sub. change (map ?f ?l) with (f <$> l).
  rewrite <- fmap_take. f_equal. apply foldr_add_wrapped.
Qed.

End series.

Lemma current_stock_total (txs : list Transaction) :
  int_of (current_stock txs) = wrap64 (total inbound_qty txs - total outbound_qty txs).
Proof.
  unfold current_stock. case_bool_decide as Hnil.
  - by rewrite Hnil.
  - simpl. by rewrite !series_sum_column, wrap64_sub_l, wrap64_sub_r.
Qed.

Lemma current_stock_Permutation (txs txs' : list Transaction) :
  txs ≡ₚ txs' → current_stock txs' = current_stock txs.
Proof.
  intros Hp. unfold current_stock.
  destruct txs as [|t txs].
  { apply Permutation_nil_l in Hp. by subst. }
  destruct txs' as [|t' txs'].
  { by apply Permutation_nil_r in Hp. }
  rewrite !bool_decide_eq_false_2 by done.
  by rewrite !series_sum_column, Hp.
Qed.

(** ** Sorting *)

Lemma take_rows_seq {A} (pre l : list A) :
  take_rows (seq (length pre) (length l)) (pre ++ l) = l.
Proof.
  unfold take_rows. revert pre. induction l as [|x l IH]; intros pre; [done|].
  simpl. rewrite list_lookup_middle by done. simpl. f_equal.
  specialize (IH (pre ++ [x])). rewrite length_app, <- app_assoc in IH. simpl in IH.
  by rewrite Nat.add_1_r in IH.
Qed.

Lemma take_rows_Permutation {A} (indexer : list nat) (l : list A) :
  indexer ≡ₚ seq 0 (length l) → take_rows indexer l ≡ₚ l.
Proof.
  intros Hp. pose proof (take_rows_seq [] l) as Hseq.
  unfold take_rows in *. simpl in Hseq. by rewrite Hp, Hseq.
Qed.



Lemma sort_values_Permutation (df : list Transaction) : sort_values df ≡ₚ df.
Proof.
  apply take_rows_Permutation. rewrite argsort_Permutation. by rewrite length_map.
Qed.


Lemma sort_values_nil_iff (df : list Transaction) : sort_values df = [] ↔ df = [].
Proof.
  split; intros Hnil.
  - apply Permutation_nil_r. rewrite <- Hnil. symmetry. apply sort_values_Permutation.
  - apply Permutation_nil_r. rewrite sort_values_Permutation. by rewrite Hnil.
Qed.

Global Instance date_le_total : Total date_le.
Proof. intros a b. unfold date_le. lia. Qed.

Global Instance tx_date_le_total : Total tx_date_le.
Proof. intros a b. apply date_le_total. Qed.

Global Instance date_le_trans : Transitive date_le.
Proof. intros a b c. unfold date_le. lia. Qed.

Global Instance tx_date_le_trans : Transitive tx_date_le.
Proof. intros a b c. unfold tx_date_le. apply date_le_trans. Qed.

(** ** C1 *)

(** C1 (as amended): the current stock computed from an item's transactions
    is the sum of the inbound quantities minus the sum of the outbound
    quantities brought into the signed 64-bit range by wrap-around, hence
    that difference itself whenever it lies in the range; it is the same for
    every order of the transactions, and sorting them by date (line 117)
    does not change it. *)
Theorem current_stock_wrapped_net_sum_any_order (txs txs' : list Transaction) :
  txs ≡ₚ txs' →
  int_of (current_stock txs)
  = wrap64 (total inbound_qty txs - total outbound_qty txs)
  ∧ (int64_range (total inbound_qty txs - total outbound_qty txs) →
     int_of (current_stock txs) = total inbound_qty txs - total outbound_qty txs)
  ∧ current_stock txs' = current_stock txs
  ∧ current_stock (sort_values txs) = current_stock txs.
Proof.
  intros Hp. split_and!.
  - apply current_stock_total.
  - intros Hrange. by rewrite current_stock_total, wrap64_id.
  - by apply current_stock_Permutation.
  - apply current_stock_Permutation. symmetry. apply sort_values_Permutation.
Qed.

(** ** C4 *)

(** C4 (as amended): the running balance has one value per transaction, in
    the order of the transactions: the value at row [i] is the balance before
    row [i] (0 before the first row) plus the inbound quantity of row [i]
    minus its outbound quantity, brought into the signed 64-bit range by
    wrap-around, hence that sum itself whenever it lies in the range.  This
    holds for every sequence, so for the sequences sorted by date in
    particular. *)
Theorem running_balance_wrapped_recurrence (txs : list Transaction) :
  length (running_balance txs) = length txs
  ∧ ∀ (i : nat) (t : Transaction),
      txs !! i = Some t →
      running_balance txs !! i
      = Some (wrap64 (balance_before txs i + inbound_qty t - outbound_qty t))
      ∧ (int64_range (balance_before txs i + inbound_qty t - outbound_qty t) →
         running_balance txs !! i
         = Some (balance_before txs i + inbound_qty t - outbound_qty t)).
Proof.
  assert (Hrec : ∀ (i : nat) (t : Transaction), txs !! i = Some t →
            running_balance txs !! i
            = Some (wrap64 (balance_before txs i + inbound_qty t - outbound_qty t))).
  { intros i t Hi. unfold balance_before, running_balance, cumsum.
    rewrite series_sub_columns.
    rewrite (cumsum_from_lookup _ 0 i (wrap64 (inbound_qty t - outbound_qty t)))
      by (change (map ?f ?l) with (f <$> l); by rewrite list_lookup_fmap, Hi).
    rewrite wrap64_add_r. do 2 f_equal. lia. }
  split.
  - unfold running_balance, cumsum. rewrite series_sub_columns.
    by rewrite length_cumsum_from, length_map.
  - intros i t Hi. split; [by apply Hrec|].
    intros Hrange. by rewrite (Hrec i t Hi), wrap64_id.
Qed.

(** ** C5 *)

(** C5: for a non-empty sequence of transactions the last running balance is
    the current stock of the same sequence (sorted by date or not). *)
Theorem last_running_balance_is_current_stock (txs : list Transaction) :
  txs ≠ [] →
  last (running_balance txs) = Some (int_of (current_stock txs)).
Proof.
  intros Hne. rewrite last_lookup.
  assert (Hlen : length (running_balance txs) = length txs).
  { unfold running_balance, cumsum. rewrite series_sub_columns.
    by rewrite length_cumsum_from, length_map. }
  rewrite Hlen. destruct txs as [|t txs]; [done|].
  rewrite running_balance_lookup by (simpl; lia).
  change (S (pred (length (t :: txs)))) with (length (t :: txs)).
  by rewrite firstn_all, current_stock_total.
Qed.

(** * Further properties of the stock calculation *)


Lemma current_stock_item_total (code : string) (df : list Transaction) :
  int_of (current_stock (item_transactions code df))
  = wrap64 (total inbound_qty (filter_item code df)
            - total outbound_qty (filter_item code df)).
Proof.
  rewrite current_stock_total. unfold item_transactions.
  by rewrite !(total_Permutation _ _ _ (sort_values_Permutation _)).
Qed.

(** X2 (lines 116-122): a transaction added anywhere in the table moves the
    current stock of its own item by its inbound minus its outbound quantity,
    in 64-bit arithmetic (so exactly, whenever the new stock lies in the
    signed 64-bit range), and leaves the current stock of every other item
    as it was. *)
Theorem current_stock_after_new_transaction (code : string) (t : Transaction)
    (before after : list Transaction) :
  let old := int_of (current_stock (item_transactions code (before ++ after))) in
  let new := int_of (current_stock (item_transactions code (before ++ t :: after))) in
  (item_code t ≠ code → new = old)
  ∧ (item_code t = code →
     new = wrap64 (old + inbound_qty t - outbound_qty t)
     ∧ (int64_range (old + inbound_qty t - outbound_qty t) →
        new = old + inbound_qty t - outbound_qty t)).
Proof.
  intros old new. subst old new. rewrite !current_stock_item_total.
  unfold filter_item. rewrite !filter_app, filter_cons, !total_app.
  split.
  - intros Hne. by rewrite decide_False by done.
  - intros Heq. rewrite decide_True by done. simpl.
    assert (Hnew : wrap64
              (total inbound_qty (filter (λ t0, item_code t0 = code) before)
               + (inbound_qty t
                  + total inbound_qty (filter (λ t0, item_code t0 = code) after))
               - (total outbound_qty (filter (λ t0, item_code t0 = code) before)
                  + (outbound_qty t
                     + total outbound_qty (filter (λ t0, item_code t0 = code) after))))
            = wrap64
                (wrap64
                   (total inbound_qty (filter (λ t0, item_code t0 = code) before)
                    + total inbound_qty (filter (λ t0, item_code t0 = code) after)
                    - (total outbound_qty (filter (λ t0, item_code t0 = code) before)
                       + total outbound_qty (filter (λ t0, item_code t0 = code) after)))
                 + inbound_qty t - outbound_qty t)).
    { rewrite wrap64_add_sub. f_equal. lia. }
    split; [exact Hnew|]. intros Hrange. rewrite Hnew. by apply wrap64_id.
Qed.

(** X3 (line 142): the running balance at row [i] is the current stock of
    the rows up to and including row [i]. *)
Theorem running_balance_is_stock_of_prefix (txs : list Transaction) (i : nat) :
  (i < length txs)%nat →
  running_balance txs !! i = Some (int_of (current_stock (take (S i) txs))).
Proof.
  intros Hi. rewrite running_balance_lookup by done.
  by rewrite current_stock_total.
Qed.
(** * Running the script: stepping lemmas *)

Section stepping.
Context {A B : Type}.

(** A statement that draws nothing hands its result and world to the rest. *)
Lemma bind_silent (m : M A) (k : A → M B) (w w1 : World) (a : A) :
  m w = (Return a, w1, []) → (m ≫= k) w = k a w1.
Proof.
  intros Hm. unfold mbind, M_bind. rewrite Hm.
  by destruct (k a w1) as [[r w2] out2].
Qed.

Lemma bind_raise (m : M A) (k : A → M B) (w w1 : World) (e : Exn) (out : list Element) :
  m w = (Raise e, w1, out) → (m ≫= k) w = (Raise e, w1, out).
Proof. intros Hm. unfold mbind, M_bind. by rewrite Hm. Qed.

Lemma bind_mret (a : A) (k : A → M B) (w : World) : (mret a ≫= k) w = k a w.
Proof. by apply bind_silent. Qed.

End stepping.

Lemma bind_draw {B} (e : Element) (k : unit → M B) (w w2 : World)
    (r : Outcome B) (out : list Element) :
  k tt w = (r, w2, out) → (draw e ≫= k) w = (r, w2, e :: out).
Proof. intros Hk. unfold mbind, M_bind, draw. by rewrite Hk. Qed.

Lemma session_master_data_run (w : World) (d : list (string * ItemInfo)) :
  master_data w = Some d → session_master_data w = (Return d, w, []).
Proof.
  intros Hd. unfold session_master_data.
  rewrite (bind_silent get_world _ w w w) by done. by rewrite Hd.
Qed.

Lemma read_frame_run (w : World) (l : loc) (f : Frame) :
  heap w !! l = Some (InventoryFrame f) → read_frame l w = (Return f, w, []).
Proof.
  intros Hl. unfold read_frame.
  rewrite (bind_silent get_world _ w w w) by done. by rewrite Hl.
Qed.

Lemma read_display_run (w : World) (l : loc) (d : list DisplayRow) :
  heap w !! l = Some (DisplayFrame d) → read_display l w = (Return d, w, []).
Proof.
  intros Hl. unfold read_display.
  rewrite (bind_silent get_world _ w w w) by done. by rewrite Hl.
Qed.

Lemma dict_getitem_elem_of (d : list (string * ItemInfo)) (key : string) (v : ItemInfo) :
  dict_getitem d key = Some v → key ∈ map fst d.
Proof.
  induction d as [|[k x] d IH]; simpl; [done|].
  case_decide as Hk; intros H.
  - subst k. apply list_elem_of_here.
  - apply list_elem_of_further. by apply IH.
Qed.

(** Objects created during a run sit after the heap [h] the run started with. *)
Lemma heap_lookup_new {X} (h news : list X) (n k : nat) (x : X) :
  n = (length h + k)%nat → news !! k = Some x → (h ++ news) !! n = Some x.
Proof. intros -> Hk. rewrite lookup_app_r by lia. by replace (length h + k - length h)%nat with k by lia. Qed.

Lemma heap_insert_new {X} (h news : list X) (n k : nat) (y : X) :
  n = (length h + k)%nat → <[n := y]> (h ++ news) = h ++ <[k := y]> news.
Proof. intros ->. apply insert_app_r. Qed.

Lemma set_heap_twice (h1 h2 : list Obj) (w : World) :
  set_heap h2 (set_heap h1 w) = set_heap h2 w.
Proof. reflexivity. Qed.

Lemma heap_set_heap (h : list Obj) (w : World) : heap (set_heap h w) = h.
Proof. reflexivity. Qed.

(** * The main screen, run on a well-formed session *)

Lemma display_rows_are_dates (txs : list Transaction) (b : list Z) :
  forallb (λ r, is_date_value (disp_date r)) (display_rows txs b) = true.
Proof.
  unfold display_rows. revert b.
  induction txs as [|t txs IH]; intros [|z b]; simpl; auto.
Qed.

Lemma getitem_mask_run (w : World) (l : loc) (code : string) (f : Frame) :
  heap w !! l = Some (InventoryFrame f) →
  getitem_mask l code w
  = (Return (length (heap w)),
     set_heap (heap w ++ [InventoryFrame (frame_filter code f)]) w, []).
Proof.
  intros Hl. unfold getitem_mask.
  by rewrite (bind_silent _ _ _ _ _ (read_frame_run w l f Hl)).
Qed.

Lemma copy_run (w : World) (l : loc) (f : Frame) :
  heap w !! l = Some (InventoryFrame f) →
  copy l w = (Return (length (heap w)), set_heap (heap w ++ [InventoryFrame f]) w, []).
Proof.
  intros Hl. unfold copy.
  by rewrite (bind_silent _ _ _ _ _ (read_frame_run w l f Hl)).
Qed.

Lemma sort_values_by_date_run (w : World) (l : loc) (f : Frame) :
  heap w !! l = Some (InventoryFrame f) →
  sort_values_by_date l w
  = (Return (length (heap w)),
     set_heap (heap w ++ [InventoryFrame (frame_sort_values f)]) w, []).
Proof.
  intros Hl. unfold sort_values_by_date.
  by rewrite (bind_silent _ _ _ _ _ (read_frame_run w l f Hl)).
Qed.

Lemma set_balance_column_run (w : World) (l : loc) (f : Frame) (series : list Z) :
  heap w !! l = Some (InventoryFrame f) →
  set_balance_column l series w
  = (Return tt,
     set_heap (<[l := InventoryFrame (mkFrame (rows f) (Some series))]> (heap w)) w, []).
Proof.
  intros Hl. unfold set_balance_column.
  by rewrite (bind_silent _ _ _ _ _ (read_frame_run w l f Hl)).
Qed.

Lemma getitem_display_columns_run (w : World) (l : loc) (txs : list Transaction)
    (b : list Z) :
  heap w !! l = Some (InventoryFrame (mkFrame txs (Some b))) →
  getitem_display_columns l w
  = (Return (length (heap w)),
     set_heap (heap w ++ [DisplayFrame (display_rows txs b)]) w, []).
Proof.
  intros Hl. unfold getitem_display_columns.
  by rewrite (bind_silent _ _ _ _ _ (read_frame_run w l _ Hl)).
Qed.

Lemma reset_index_run (w : World) (l : loc) (d : list DisplayRow) :
  heap w !! l = Some (DisplayFrame d) →
  reset_index l w
  = (Return (length (heap w)), set_heap (heap w ++ [DisplayFrame d]) w, []).
Proof.
  intros Hl. unfold reset_index.
  by rewrite (bind_silent _ _ _ _ _ (read_display_run w l d Hl)).
Qed.

Lemma format_date_column_run (w : World) (l : loc) (txs : list Transaction)
    (b : list Z) :
  heap w !! l = Some (DisplayFrame (display_rows txs b)) →
  format_date_column l w
  = (Return tt,
     set_heap (<[l := DisplayFrame (map format_row (display_rows txs b))]> (heap w)) w,
     []).
Proof.
  intros Hl. unfold format_date_column.
  rewrite (bind_silent _ _ _ _ _ (read_display_run w l _ Hl)).
  by rewrite display_rows_are_dates.
Qed.

Lemma when_draw_run {B} (b : bool) (e : Element) (k : unit → M B) (w w2 : World)
    (r : Outcome B) (out : list Element) :
  k tt w = (r, w2, out) →
  (when b (draw e) ≫= k) w = (r, w2, (if b then [e] else []) ++ out).
Proof.
  intros Hk. destruct b; simpl when.
  - by apply bind_draw.
  - by rewrite bind_mret.
Qed.

Lemma world_lookup_new (w : World) (h news : list Obj) (n place : nat) (o : Obj) :
  n = (length h + place)%nat → news !! place = Some o →
  heap (set_heap (h ++ news) w) !! n = Some o.
Proof. apply heap_lookup_new. Qed.

Ltac normalize_heap :=
  rewrite ?set_heap_twice, ?heap_set_heap, <- ?app_assoc, ?length_app;
  cbn [app length].

(** One statement that finds its frame at place [k] among the new objects. *)
Ltac step_new run i :=
  erewrite bind_silent;
    [| apply run; apply world_lookup_new with (place := i); [lia | reflexivity]];
  normalize_heap.

Lemma main_view_run (inp : Inputs) (inventory_df : loc) (w : World)
    (code : string) (info : ItemInfo) (f : Frame) :
  viewing inp inventory_df w code info f →
  main_view inp inventory_df w
  = (Return tt, set_heap (heap w ++ view_objects code f) w,
     view_page (safety_stock info) (item_rows code f)).
Proof.
  intros ((d & Hd & Hget) & Hchoice & Hne & Hph & Hinv).
  unfold main_view.
  rewrite (bind_silent _ _ _ _ _ (session_master_data_run w d Hd)).
  unfold selectbox. rewrite Hchoice.
  rewrite decide_True
    by (apply list_elem_of_further; eauto using dict_getitem_elem_of).
  unfold truthy. rewrite !bool_decide_eq_true_2 by done. cbn [andb].
  rewrite (bind_silent _ _ _ _ _ (session_master_data_run w d Hd)).
  unfold getitem. rewrite Hget, bind_mret.
  set (filtered := frame_filter code f).
  set (sorted := frame_sort_values filtered).
  set (h := heap w).
  (* lines 116-117: three new objects *)
  rewrite (bind_silent _ _ _ _ _ (getitem_mask_run w _ code f Hinv)).
  fold filtered h.
  step_new copy_run 0%nat.
  step_new sort_values_by_date_run 1%nat. fold sorted.
  step_new read_frame_run 2%nat.
  (* lines 127-136 *)
  unfold view_page, view_objects, item_rows. fold filtered sorted. cbv zeta.
  apply bind_draw, when_draw_run.
  (* lines 141-148 *)
  case_bool_decide as Hrows; [|done].
  step_new set_balance_column_run 2%nat.
  rewrite (heap_insert_new h _ _ 2%nat) by lia. cbn [insert list_insert].
  step_new getitem_display_columns_run 2%nat.
  step_new reset_index_run 3%nat.
  step_new format_date_column_run 4%nat.
  rewrite (heap_insert_new h _ _ 4%nat) by lia. cbn [insert list_insert].
  step_new read_display_run 4%nat.
  reflexivity.
Qed.

Lemma item_rows_plain (code : string) (df : list Transaction) :
  item_rows code (mkFrame df None) = item_transactions code df.
Proof. reflexivity. Qed.

(** * The save handler, run on any world *)

Lemma dict_set_safety_None (d : list (string * ItemInfo)) (key : string) (value : Z) :
  dict_getitem d key = None → dict_set_safety d key value = None.
Proof.
  induction d as [|[k x] d IH]; simpl; [done|].
  case_decide; [done|]. intros Hrest. by rewrite IH.
Qed.

Lemma dict_set_safety_Some (d d' : list (string * ItemInfo)) (key : string) (value : Z) :
  dict_set_safety d key value = Some d' →
  ∃ info, dict_getitem d key = Some info
          ∧ dict_getitem d' key = Some (mkItemInfo (item_name info) value)
          ∧ (∀ k, k ≠ key → dict_getitem d' k = dict_getitem d k)
          ∧ map fst d' = map fst d.
Proof.
  revert d'. induction d as [|[k x] d IH]; intros d'; simpl; [done|].
  case_decide as Hk.
  - intros [= <-]. subst k. exists x. simpl. rewrite decide_True by done.
    split_and!; [done..| |done].
    intros k' Hk'. by rewrite !decide_False by congruence.
  - destruct (dict_set_safety d key value) as [d0|] eqn:Hset; [|done].
    intros [= <-]. destruct (IH d0 eq_refl) as (info & Hget & Hnew & Hother & Hkeys).
    exists info. simpl. rewrite decide_False by done.
    split_and!; [done..| |by rewrite Hkeys].
    intros k' Hk'. case_decide; [done|]. by apply Hother.
Qed.

Lemma session_set_safety_run (code : string) (value : Z) (w : World) :
  session_set_safety code value w
  = match master_data w with
    | None => (Raise AttributeError, w, [])
    | Some d =>
        match dict_set_safety d code value with
        | None => (Raise (KeyError code), w, [])
        | Some d' => (Return tt, set_master_data (Some d') w, [])
        end
    end.
Proof.
  unfold session_set_safety. destruct (master_data w) as [d|] eqn:Hd.
  - rewrite (bind_silent _ _ _ _ _ (session_master_data_run w d Hd)).
    by destruct (dict_set_safety d code value).
  - apply bind_raise. unfold session_master_data.
    rewrite (bind_silent get_world _ w w w) by done. by rewrite Hd.
Qed.

(** The four ways through lines 84-96. *)
Lemma save_button_handler_run (inp : Inputs) (code : string) (value : Z) (w : World) :
  save_button_handler inp code value w
  = if db_write_ok inp then
      match master_data w with
      | None => (Return tt, committed code value w, [ErrorDbUpdate AttributeError])
      | Some d =>
          match dict_set_safety d code value with
          | None => (Return tt, committed code value w, [ErrorDbUpdate (KeyError code)])
          | Some d' =>
              (Return tt,
               clear_cache_data (set_master_data (Some d') (committed code value w)),
               [Success code value])
          end
      end
    else (Return tt, w, [ErrorDbUpdate DbError]).
Proof.
  unfold save_button_handler, update_safety_stock_in_db, try_except.
  destruct (db_write_ok inp).
  - rewrite (bind_silent _ _ w (committed code value w) tt) by done.
    pose proof (session_set_safety_run code value (committed code value w)) as Hset.
    change (master_data (committed code value w)) with (master_data w) in Hset.
    destruct (master_data w) as [d|].
    + destruct (dict_set_safety d code value) as [d'|].
      * rewrite (bind_silent _ _ _ _ _ Hset).
        rewrite (bind_silent _ _ _ (clear_cache_data (set_master_data (Some d')
                   (committed code value w))) tt) by done.
        reflexivity.
      * by rewrite (bind_raise _ _ _ _ _ _ Hset).
    + by rewrite (bind_raise _ _ _ _ _ _ Hset).
  - by rewrite (bind_raise _ _ w w DbError []).
Qed.

Lemma update_row_code (code : string) (value : Z) (r : MasterRow) :
  master_code (update_row code value r) = master_code r.
Proof. unfold update_row. by case_decide. Qed.

Lemma update_row_safety (code : string) (value : Z) (r : MasterRow) :
  master_code r = code → master_safety (update_row code value r) = value.
Proof. intros H. unfold update_row. by rewrite decide_True. Qed.

Lemma update_row_other (code : string) (value : Z) (r : MasterRow) :
  master_code r ≠ code → update_row code value r = r.
Proof. intros H. unfold update_row. by rewrite decide_False. Qed.

(** An UPDATE whose WHERE clause matches no row changes nothing and raises
    nothing. *)
Lemma update_safety_stock_in_db_no_row (inp : Inputs) (code : string) (value : Z)
    (w : World) :
  db_write_ok inp = true →
  Forall (λ r, master_code r ≠ code) (db_master w) →
  update_safety_stock_in_db inp code value w = (Return tt, w, []).
Proof.
  intros Hok Hrows. unfold update_safety_stock_in_db, modify_world. rewrite Hok.
  f_equal. f_equal. destruct w as [dbm dbi c mq iq md idata h]. unfold set_db_master.
  simpl in *. f_equal. induction Hrows as [|r rs Hr _ IH]; simpl; [done|].
  by rewrite update_row_other, IH.
Qed.

(** The world after a bulk load that asked the database for both tables. *)
Lemma load_after_clear (inp : Inputs) (w : World) :
  cache w = None → master_query_memo w = None → inventory_query_memo w = None →
  master_query_ok inp = true → inventory_query_ok inp = true →
  load_data_from_db inp w
  = (Return (db_master w, db_inventory w),
     set_cache (Some (db_master w, db_inventory w))
       (set_inventory_query_memo (Some (db_inventory w))
          (set_master_query_memo (Some (db_master w)) w)), []).
Proof.
  intros Hc Hm Hi Hmok Hiok. unfold load_data_from_db.
  rewrite (bind_silent get_world _ w w w) by done. rewrite Hc.
  assert (Hqm : query_master inp w
            = (Return (db_master w), set_master_query_memo (Some (db_master w)) w, [])).
  { unfold query_master. rewrite (bind_silent get_world _ w w w) by done.
    rewrite Hm, Hmok.
    by rewrite (bind_silent _ _ w (set_master_query_memo (Some (db_master w)) w) tt). }
  assert (Hqi : query_inventory inp (set_master_query_memo (Some (db_master w)) w)
            = (Return (db_inventory w),
               set_inventory_query_memo (Some (db_inventory w))
                 (set_master_query_memo (Some (db_master w)) w), [])).
  { unfold query_inventory. rewrite (bind_silent get_world _ _ _ _ eq_refl).
    cbn [inventory_query_memo set_master_query_memo]. rewrite Hi, Hiok.
    by rewrite (bind_silent _ _ _ _ tt eq_refl). }
  assert (Hq : query_db inp w
            = (Return (db_master w, db_inventory w),
               set_inventory_query_memo (Some (db_inventory w))
                 (set_master_query_memo (Some (db_master w)) w), [])).
  { unfold query_db. rewrite (bind_silent _ _ _ _ _ Hqm).
    by rewrite (bind_silent _ _ _ _ _ Hqi). }
  rewrite (bind_silent _ _ _ _ _ Hq).
  by rewrite (bind_silent _ _ _ _ tt eq_refl).
Qed.

(** * The claims about the main screen *)

(** ** C2 *)

(** C2 (as amended): for a safety stock within the signed 64-bit range (as
    every value of the column and of the number input is) the main screen
    raises nothing and shows, next to the current stock and the safety stock,
    an available stock that is their difference: exactly for an item without
    transactions, and brought into the signed 64-bit range by wrap-around for
    an item with transactions, hence the difference itself whenever it lies
    in that range.  A negative value is shown like any other. *)
Theorem available_stock_is_wrapped_difference (inp : Inputs) (inventory_df : loc)
    (w : World) (code : string) (info : ItemInfo) (df : list Transaction) :
  viewing inp inventory_df w code info (mkFrame df None) →
  int64_range (safety_stock info) →
  let txs := item_transactions code df in
  let current := int_of (current_stock txs) in
  let safety := safety_stock info in
  let available := int_of (available_stock (current_stock txs) safety) in
  (∃ (w' : World) (rest : list Element),
     main_view inp inventory_df w
     = (Return tt, w', Metrics current safety available :: rest))
  ∧ (txs = [] → available = current - safety)
  ∧ (txs ≠ [] → available = wrap64 (current - safety))
  ∧ (int64_range (current - safety) → available = current - safety).
Proof.
  intros Hview _ txs current safety available.
  assert (Hcases : (txs = [] → available = current - safety)
                   ∧ (txs ≠ [] → available = wrap64 (current - safety))).
  { subst available current. unfold current_stock.
    case_bool_decide as Hnil; simpl; split; done. }
  destruct Hcases as [Hempty Hsome]. split_and!; [|done|done|].
  - rewrite (main_view_run _ _ _ _ _ _ Hview), item_rows_plain.
    unfold view_page. eauto.
  - intros Hrange. destruct (decide (txs = [])) as [Hnil|Hnil]; [by apply Hempty|].
    rewrite (Hsome Hnil). by apply wrap64_id.
Qed.

(** ** C3 *)

(** C3: the shortage condition holds if and only if the available stock is
    at most zero, zero included; the main screen draws the shortage banner
    under exactly that condition. *)
Theorem shortage_iff_available_nonpositive :
  (∀ available : Number, is_shortage available = true ↔ int_of available ≤ 0)
  ∧ ∀ (inp : Inputs) (inventory_df : loc) (w : World) (code : string)
      (info : ItemInfo) (df : list Transaction),
      viewing inp inventory_df w code info (mkFrame df None) →
      let current := current_stock (item_transactions code df) in
      let safety := safety_stock info in
      ErrorShortage (int_of current) safety ∈ (main_view inp inventory_df w).2
      ↔ int_of (available_stock current safety) ≤ 0.
Proof.
  split; [intros available; apply bool_decide_eq_true|].
  intros inp inventory_df w code info df Hview current safety.
  rewrite (main_view_run _ _ _ _ _ _ Hview), item_rows_plain.
  unfold view_page. fold current safety. cbn [snd].
  unfold is_shortage. case_bool_decide as Hle.
  - split; [done|]. intros _. apply list_elem_of_further, list_elem_of_here.
  - split; [|done]. intros Hin. exfalso.
    apply elem_of_cons in Hin as [Heq|Hin]; [done|].
    apply elem_of_cons in Hin as [Heq|Hin]; [by case_bool_decide|].
    by apply not_elem_of_nil in Hin.
Qed.

(** ** C6 *)

(** C6: for an item without transactions the current stock is 0 and the
    running balance is empty; the main screen raises nothing, shows the
    metrics computed from stock 0 and draws the warning of line 148 in place
    of the table. *)
Theorem empty_history_is_a_warning (inp : Inputs) (inventory_df : loc) (w : World)
    (code : string) (info : ItemInfo) (df : list Transaction) :
  viewing inp inventory_df w code info (mkFrame df None) →
  filter_item code df = [] →
  current_stock (item_transactions code df) = PyInt 0
  ∧ running_balance (item_transactions code df) = []
  ∧ ∃ w' : World,
      main_view inp inventory_df w
      = (Return tt, w',
         Metrics 0 (safety_stock info) (0 - safety_stock info)
         :: (if bool_decide (0 - safety_stock info ≤ 0)
             then [ErrorShortage 0 (safety_stock info)] else [])
         ++ [WarningNoHistory]).
Proof.
  intros Hview Hnone.
  assert (Hrows : item_transactions code df = [])
    by (unfold item_transactions; rewrite Hnone; by apply sort_values_nil_iff).
  rewrite (main_view_run _ _ _ _ _ _ Hview), item_rows_plain, Hrows.
  split_and!; [done..|]. eexists. reflexivity.
Qed.

(** * The claims about the safety-stock update *)

(** ** C7 *)

(** C7 (as amended): when the save handler reports success, the in-memory
    Item Master holds the new value for that item code (same name, other
    entries as before) from the next read on, and every memo of the bulk
    load is empty, so that a bulk load that reaches the database returns the
    stored tables as committed.  In the master table it returns, every row of
    that item code carries the new value: the reload shows the change when
    the stored table has such a row, and has no row of the item when the row
    is gone from the store. *)
Theorem save_success_updates_master_and_clears_cache (inp : Inputs)
    (code : string) (value : Z) (w : World) :
  Success code value ∈ (save_button_handler inp code value w).2 →
  let w' := (save_button_handler inp code value w).1.2 in
  (∃ info : ItemInfo,
      item_master_lookup w code = Some info
      ∧ item_master_lookup w' code = Some (mkItemInfo (item_name info) value))
  ∧ (∀ other : string, other ≠ code →
       item_master_lookup w' other = item_master_lookup w other)
  ∧ (cache w' = None ∧ master_query_memo w' = None ∧ inventory_query_memo w' = None)
  ∧ ∀ reload : Inputs,
      master_query_ok reload = true → inventory_query_ok reload = true →
      ∃ (master_df : list MasterRow) (w'' : World),
        load_data_from_db reload w' = (Return (master_df, db_inventory w), w'', [])
        ∧ master_df = map (update_row code value) (db_master w)
        ∧ Forall (λ r, master_code r = code → master_safety r = value) master_df
        ∧ (has_row code (db_master w) →
           ∃ r : MasterRow,
             r ∈ master_df ∧ master_code r = code ∧ master_safety r = value)
        ∧ (¬ has_row code (db_master w) → ¬ has_row code master_df).
Proof.
  intros Hin w'. subst w'. revert Hin. rewrite save_button_handler_run.
  destruct (db_write_ok inp); cycle 1.
  { intros Hin. apply list_elem_of_singleton in Hin. discriminate. }
  unfold item_master_lookup.
  destruct (master_data w) as [d|] eqn:Hd; cycle 1.
  { intros Hin. apply list_elem_of_singleton in Hin. discriminate. }
  destruct (dict_set_safety d code value) as [d'|] eqn:Hset; cycle 1.
  { intros Hin. apply list_elem_of_singleton in Hin. discriminate. }
  intros _. cbn [fst snd].
  destruct (dict_set_safety_Some _ _ _ _ Hset) as (info & Hget & Hnew & Hother & _).
  split_and!.
  - exists info. by split.
  - intros other Hne. cbn. by apply Hother.
  - done.
  - done.
  - done.
  - intros reload Hmok Hiok. rewrite load_after_clear by done.
    eexists _, _. split; [reflexivity|]. cbn.
    split_and!; [done| | |].
    + apply Forall_forall. intros r Hr.
      apply list_elem_of_fmap in Hr as (r0 & -> & _). rewrite update_row_code.
      apply update_row_safety.
    + intros (r & Hr & Hcode). exists (update_row code value r). split_and!.
      * change (map ?f ?l) with (f <$> l). by apply list_elem_of_fmap_2.
      * by rewrite update_row_code.
      * by apply update_row_safety.
    + intros Hno (r & Hr & Hcode).
      apply list_elem_of_fmap in Hr as (r0 & -> & Hr0). rewrite update_row_code in Hcode.
      apply Hno. by exists r0.
Qed.

(** ** C8 *)

(** C8: when the write to the database raises, the save handler leaves the
    whole world as it was (the Item Master and the memo of the bulk load in
    particular), catches the exception and reports it. *)
Theorem failed_write_changes_nothing (inp : Inputs) (code : string) (value : Z)
    (w : World) :
  db_write_ok inp = false →
  update_safety_stock_in_db inp code value w = (Raise DbError, w, [])
  ∧ save_button_handler inp code value w = (Return tt, w, [ErrorDbUpdate DbError]).
Proof.
  intros Hfail. split.
  - unfold update_safety_stock_in_db. by rewrite Hfail.
  - by rewrite save_button_handler_run, Hfail.
Qed.

(** The sidebar calls the handler with a key of the Item Master only: the
    select box returns one of its options. *)
Lemma sidebar_selects_known_item (d : list (string * ItemInfo)) (choice code : string) :
  selectbox (map fst d) choice = Some code → is_Some (dict_getitem d code).
Proof.
  assert (Hin : ∀ k, k ∈ map fst d → is_Some (dict_getitem d k)).
  { intros k. induction d as [|[k0 x] d IH]; simpl.
    - intros Hk. by apply elem_of_nil in Hk.
    - intros Hk. case_decide; [done|].
      apply elem_of_cons in Hk as [->|Hk]; [done|]. by apply IH. }
  unfold selectbox. case_decide as Hc.
  - intros [= <-]. by apply Hin.
  - intros Hhead. apply Hin. by apply head_Some_elem_of.
Qed.

Lemma dict_set_safety_is_Some (d : list (string * ItemInfo)) (key : string)
    (value : Z) (info : ItemInfo) :
  dict_getitem d key = Some info → is_Some (dict_set_safety d key value).
Proof.
  induction d as [|[k x] d IH]; simpl; [done|].
  case_decide; [done|]. intros Hrest. destruct (IH Hrest) as [d' ->]. done.
Qed.

(** A code of the Item Master whose row is gone from the stored table: the
    UPDATE matches nothing, and the handler goes on to report success. *)
Lemma missing_row_still_succeeds (inp : Inputs) (code : string) (value : Z)
    (w : World) (info : ItemInfo) :
  db_write_ok inp = true →
  item_master_lookup w code = Some info →
  Forall (λ r, master_code r ≠ code) (db_master w) →
  ∃ w' : World,
    save_button_handler inp code value w = (Return tt, w', [Success code value])
    ∧ db_master w' = db_master w
    ∧ item_master_lookup w' code = Some (mkItemInfo (item_name info) value).
Proof.
  intros Hok Hinfo Hrows. rewrite save_button_handler_run, Hok.
  unfold item_master_lookup in *.
  destruct (master_data w) as [d|]; [|done]. cbn in Hinfo.
  destruct (dict_set_safety_is_Some d code value info Hinfo) as [d' Hset].
  rewrite Hset. eexists. split; [reflexivity|].
  destruct (dict_set_safety_Some _ _ _ _ Hset) as (info' & Hget & Hnew & _).
  split.
  - pose proof (update_safety_stock_in_db_no_row inp code value w Hok Hrows) as Hrun.
    unfold update_safety_stock_in_db, modify_world in Hrun. rewrite Hok in Hrun.
    cbn. injection Hrun as Hw. by rewrite <- Hw at 2.
  - cbn. rewrite Hnew. congruence.
Qed.

Lemma no_row_Forall (code : string) (master_df : list MasterRow) :
  ¬ has_row code master_df → Forall (λ r, master_code r ≠ code) master_df.
Proof.
  intros Hno. apply Forall_forall. intros r Hr Hcode. apply Hno. by exists r.
Qed.

(** ** C9 *)

(** C9 (as amended): when the item code has no row in the stored master
    table and the write goes through, [update_safety_stock_in_db] does not
    fail: the UPDATE matches no row, the stored table stays as it was and the
    call returns normally.  For a code of the session's Item Master, the only
    codes the sidebar passes, the save handler then sets the in-memory entry
    to the new value and reports success. *)
Theorem save_for_missing_row_reports_success (inp : Inputs) (code : string)
    (value : Z) (w : World) :
  db_write_ok inp = true →
  ¬ has_row code (db_master w) →
  update_safety_stock_in_db inp code value w = (Return tt, w, [])
  ∧ ∀ info : ItemInfo,
      item_master_lookup w code = Some info →
      ∃ w' : World,
        save_button_handler inp code value w = (Return tt, w', [Success code value])
        ∧ db_master w' = db_master w
        ∧ item_master_lookup w' code = Some (mkItemInfo (item_name info) value).
Proof.
  intros Hok Hno. apply no_row_Forall in Hno. split.
  - by apply update_safety_stock_in_db_no_row.
  - intros info Hinfo. by eapply missing_row_still_succeeds.
Qed.

(** * The claim about viewing *)

Lemma unchanged_by_refl (w : World) : unchanged_by w w.
Proof. by unfold unchanged_by. Qed.

Lemma unchanged_by_new_objects (w : World) (news : list Obj) :
  unchanged_by w (set_heap (heap w ++ news) w).
Proof.
  unfold unchanged_by. split_and!; try done.
  intros l o Hl. cbn. by apply lookup_app_l_Some.
Qed.

Lemma read_frame_raise (w : World) (l : loc) :
  (∀ f, heap w !! l ≠ Some (InventoryFrame f)) →
  read_frame l w = (Raise AttributeError, w, []).
Proof.
  intros Hno. unfold read_frame.
  rewrite (bind_silent get_world _ w w w) by done.
  destruct (heap w !! l) as [[f|d]|] eqn:Hl; try done. by destruct (Hno f).
Qed.

(** Either an item is being viewed on a well-formed session, or the main
    screen stops (a prompt, or an exception) without touching the world. *)
Lemma main_view_cases (inp : Inputs) (inventory_df : loc) (w : World) :
  (∃ code info f, viewing inp inventory_df w code info f)
  ∨ (∃ r out, main_view inp inventory_df w = (r, w, out)).
Proof.
  destruct (master_data w) as [d|] eqn:Hd; cycle 1.
  { right. eexists _, _. apply bind_raise. unfold session_master_data.
    rewrite (bind_silent get_world _ w w w) by done. by rewrite Hd. }
  unfold main_view.
  rewrite (bind_silent _ _ _ _ _ (session_master_data_run w d Hd)).
  destruct (selectbox (placeholder :: map fst d) (main_choice inp))
    as [code|] eqn:Hsel; [|right; by eexists _, _].
  destruct (truthy (Some code) && bool_decide (code ≠ placeholder)) eqn:Hcond;
    [|right; by eexists _, _].
  apply andb_true_iff in Hcond as [Hne Hph].
  apply bool_decide_eq_true in Hne, Hph.
  assert (Hchoice : main_choice inp = code).
  { unfold selectbox in Hsel. case_decide; cbn in Hsel; congruence. }
  rewrite (bind_silent _ _ _ _ _ (session_master_data_run w d Hd)).
  unfold getitem. destruct (dict_getitem d code) as [info|] eqn:Hget; cycle 1.
  { right. eexists _, _. by apply bind_raise. }
  destruct (heap w !! inventory_df) as [[f|table]|] eqn:Hf.
  - left. exists code, info, f. unfold viewing. eauto 10.
  - right. rewrite bind_mret. eexists _, _. apply bind_raise.
    unfold getitem_mask. apply bind_raise, read_frame_raise. congruence.
  - right. rewrite bind_mret. eexists _, _. apply bind_raise.
    unfold getitem_mask. apply bind_raise, read_frame_raise. congruence.
Qed.

(** ** C10 *)

(** C10: whatever is selected on the main screen and whatever the session
    holds, drawing the main screen leaves the Item Master, the reference to
    the transaction table and the table object behind it, the database and
    the memo as they were: the column 잔량 is written to an object created by
    this run, never to one that existed before. *)
Theorem main_view_is_read_only (inp : Inputs) (inventory_df : loc) (w : World) :
  unchanged_by w (main_view inp inventory_df w).1.2.
Proof.
  destruct (main_view_cases inp inventory_df w)
    as [(code & info & f & Hview)|(r & out & Hrun)].
  - rewrite (main_view_run _ _ _ _ _ _ Hview). apply unchanged_by_new_objects.
  - rewrite Hrun. apply unchanged_by_refl.
Qed.

(** The same assignment made on the frame of the session itself would change
    it: the new objects of lines 116-117 are what keeps it intact. *)
Lemma set_balance_column_in_place (w : World) (l : loc) (f : Frame) (series : list Z) :
  heap w !! l = Some (InventoryFrame f) →
  heap (set_balance_column l series w).1.2 !! l
  = Some (InventoryFrame (mkFrame (rows f) (Some series))).
Proof.
  intros Hl. rewrite (set_balance_column_run _ _ _ _ Hl). cbn.
  apply list_lookup_insert_eq. by eapply lookup_lt_Some.
Qed.

(** * Further properties of the save handler and the bulk load *)

Lemma update_row_twice (code : string) (value : Z) (r : MasterRow) :
  update_row code value (update_row code value r) = update_row code value r.
Proof. unfold update_row. repeat case_decide; simpl in *; done. Qed.

Lemma committed_twice (code : string) (value : Z) (w : World) :
  committed code value (committed code value w) = committed code value w.
Proof.
  unfold committed, set_db_master. cbn. f_equal.
  rewrite <- list_fmap_compose. apply list_fmap_ext. intros _ r _.
  apply update_row_twice.
Qed.

Lemma dict_set_safety_twice (d d' : list (string * ItemInfo)) (key : string) (value : Z) :
  dict_set_safety d key value = Some d' → dict_set_safety d' key value = Some d'.
Proof.
  revert d'. induction d as [|[k x] d IH]; intros d'; simpl; [done|].
  case_decide as Hk.
  - intros [= <-]. simpl. by rewrite decide_True.
  - destruct (dict_set_safety d key value) as [d0|] eqn:Hset; [|done].
    intros [= <-]. simpl. rewrite decide_False by done. by rewrite (IH d0).
Qed.

Lemma dict_set_safety_names (d d' : list (string * ItemInfo)) (key : string) (value : Z) :
  dict_set_safety d key value = Some d' → codes_and_names d' = codes_and_names d.
Proof.
  revert d'. induction d as [|[k x] d IH]; intros d'; simpl; [done|].
  case_decide as Hk.
  - by intros [= <-].
  - destruct (dict_set_safety d key value) as [d0|] eqn:Hset; [|done].
    intros [= <-]. unfold codes_and_names in *. simpl. by rewrite (IH d0).
Qed.

(** X4 (lines 84-96): saving the same value for the same item a second time
    changes nothing more and draws the same message as the first time. *)
Theorem save_twice_is_save_once (inp : Inputs) (code : string) (value : Z) (w : World) :
  let first := save_button_handler inp code value w in
  save_button_handler inp code value first.1.2 = (Return tt, first.1.2, first.2).
Proof.
  intros first. subst first. rewrite !save_button_handler_run.
  destruct (db_write_ok inp); [|done].
  destruct (master_data w) as [d|] eqn:Hd; cbn [fst snd].
  - destruct (dict_set_safety d code value) as [d'|] eqn:Hset; cbn [fst snd].
    + change (master_data (clear_cache_data (set_master_data (Some d')
                (committed code value w)))) with (Some d').
      cbv beta iota. rewrite (dict_set_safety_twice _ _ _ _ Hset).
      f_equal. f_equal. unfold clear_cache_data, set_master_data. cbn.
      f_equal. exact (f_equal db_master (committed_twice code value w)).
    + change (master_data (committed code value w)) with (master_data w).
      rewrite Hd, Hset. by rewrite committed_twice.
  - change (master_data (committed code value w)) with (master_data w).
    rewrite Hd. by rewrite committed_twice.
Qed.

(** X5 (lines 21-30, 84-96): whatever its outcome, the save handler leaves
    the stored transactions, the objects and the session's reference to the
    transaction frame as they were; in the stored master table it keeps every
    code and name in place and every row of another code untouched; in the
    session's Item Master it keeps the codes, their order and their names. *)
Theorem save_touches_one_safety_stock (inp : Inputs) (code : string) (value : Z)
    (w : World) :
  let w' := (save_button_handler inp code value w).1.2 in
  db_inventory w' = db_inventory w
  ∧ heap w' = heap w
  ∧ inventory_data w' = inventory_data w
  ∧ map master_code (db_master w') = map master_code (db_master w)
  ∧ map master_name (db_master w') = map master_name (db_master w)
  ∧ (∀ (i : nat) (r : MasterRow),
       db_master w !! i = Some r → master_code r ≠ code → db_master w' !! i = Some r)
  ∧ codes_and_names <$> master_data w' = codes_and_names <$> master_data w.
Proof.
  intros w'. subst w'.
  assert (Hcodes : map master_code (map (update_row code value) (db_master w))
                   = map master_code (db_master w)).
  { rewrite map_map. apply map_ext. intros r. apply update_row_code. }
  assert (Hnames : map master_name (map (update_row code value) (db_master w))
                   = map master_name (db_master w)).
  { rewrite map_map. apply map_ext. intros r. unfold update_row. by case_decide. }
  assert (Hrows : ∀ (i : nat) (r : MasterRow),
             db_master w !! i = Some r → master_code r ≠ code →
             map (update_row code value) (db_master w) !! i = Some r).
  { intros i r Hi Hr. change (map ?f ?l) with (f <$> l).
    rewrite list_lookup_fmap, Hi. cbn. by rewrite update_row_other. }
  rewrite save_button_handler_run.
  destruct (db_write_ok inp); [|by split_and!].
  destruct (master_data w) as [d|] eqn:Hd; cbn [fst snd].
  - destruct (dict_set_safety d code value) as [d'|] eqn:Hset; cbn [fst snd].
    + split_and!; try done. cbn. f_equal. by eapply dict_set_safety_names.
    + split_and!; try done. cbn. by rewrite Hd.
  - split_and!; try done. cbn. by rewrite Hd.
Qed.

(** X6 (lines 33-46): what a bulk load returns is what the memo holds
    afterwards, and any later bulk load within the 300 s returns the same
    tables without asking the database, whatever the tables hold by then and
    whether or not the database can be reached. *)
Theorem load_within_ttl_returns_memo (inp : Inputs) (w w1 : World)
    (loaded : list MasterRow * list Transaction) (out : list Element) :
  load_data_from_db inp w = (Return loaded, w1, out) →
  cache w1 = Some loaded
  ∧ ∀ (later : Inputs) (w2 : World),
      cache w2 = cache w1 → cache_expired later = false →
      load_data_from_db later w2 = (Return loaded, w2, []).
Proof.
  intros Hload.
  assert (Hc : cache w1 = Some loaded).
  { unfold load_data_from_db in Hload.
    rewrite (bind_silent get_world _ w w w) in Hload by done.
    assert (Hq : (query_db inp ≫= λ loaded,
                    modify_world (set_cache (Some loaded));; mret loaded) w
                 = (Return loaded, w1, out) → cache w1 = Some loaded).
    { unfold mbind, M_bind, modify_world, mret, M_ret.
      destruct (query_db inp w) as [[[got|e] wq] outq]; [|done].
      by intros [= <- <- _]. }
    destruct (cache w) as [memo|] eqn:Hmemo; [|by apply Hq].
    destruct (cache_expired inp); [by apply Hq|].
    by injection Hload as <- <- _. }
  split; [done|]. intros later w2 Hsame Hfresh.
  unfold load_data_from_db. rewrite (bind_silent get_world _ w2 w2 w2) by done.
  by rewrite Hsame, Hc, Hfresh.
Qed.

(** * Further properties of the main screen *)

Lemma view_table_columns (txs : list Transaction) (b : list Z) :
  length b = length txs →
  map disp_balance (map format_row (display_rows txs b)) = b
  ∧ map disp_date (map format_row (display_rows txs b))
    = map (λ t, DateText (strftime (date t))) txs
  ∧ map disp_description (map format_row (display_rows txs b)) = map description txs
  ∧ map disp_inbound (map format_row (display_rows txs b)) = map inbound_qty txs
  ∧ map disp_outbound (map format_row (display_rows txs b)) = map outbound_qty txs.
Proof.
  unfold display_rows. revert b.
  induction txs as [|t txs IH]; intros [|z b] Hlen; simpl in *; try done.
  destruct (IH b) as (H1 & H2 & H3 & H4 & H5); [lia|].
  by rewrite H1, H2, H3, H4, H5.
Qed.

(** X7 (lines 141-146): for an item with transactions the main screen ends
    with the table; its rows follow the item's transactions in date order,
    with the dates as text of the form year-month-day, the descriptions and
    quantities as stored, and the running balance in the last column. *)
Theorem main_view_draws_the_ledger (inp : Inputs) (inventory_df : loc) (w : World)
    (code : string) (info : ItemInfo) (df : list Transaction) :
  viewing inp inventory_df w code info (mkFrame df None) →
  filter_item code df ≠ [] →
  let txs := item_transactions code df in
  ∃ table : list DisplayRow,
    last (main_view inp inventory_df w).2 = Some (Dataframe table)
    ∧ map disp_date table = map (λ t, DateText (strftime (date t))) txs
    ∧ map disp_description table = map description txs
    ∧ map disp_inbound table = map inbound_qty txs
    ∧ map disp_outbound table = map outbound_qty txs
    ∧ map disp_balance table = running_balance txs.
Proof.
  intros Hview Hsome txs.
  assert (Hrows : txs ≠ []).
  { subst txs. unfold item_transactions. by rewrite sort_values_nil_iff. }
  rewrite (main_view_run _ _ _ _ _ _ Hview), item_rows_plain. fold txs.
  unfold view_page. cbn [snd]. rewrite bool_decide_eq_true_2 by done.
  exists (view_table txs). split.
  { rewrite app_comm_cons. apply last_snoc. }
  unfold view_table.
  destruct (view_table_columns txs (running_balance txs)) as (H1 & H2 & H3 & H4 & H5);
    [|done].
  unfold running_balance, cumsum. rewrite series_sub_columns.
  by rewrite length_cumsum_from, length_map.
Qed.

(** X8 (lines 103-108, 150-151): when the choice on the main screen is the
    placeholder, is empty or is not a key of the Item Master, the main screen
    draws the prompt only and changes nothing; an item whose code is the
    empty string or the text of the placeholder can therefore not be viewed. *)
Theorem main_view_prompts_without_item (inp : Inputs) (inventory_df : loc) (w : World)
    (d : list (string * ItemInfo)) :
  master_data w = Some d →
  main_choice inp = placeholder ∨ main_choice inp = "" ∨ main_choice inp ∉ map fst d →
  main_view inp inventory_df w = (Return tt, w, [InfoSelectItem]).
Proof.
  intros Hd Hchoice. unfold main_view.
  rewrite (bind_silent _ _ _ _ _ (session_master_data_run w d Hd)).
  unfold selectbox. case_decide as Hin.
  - destruct Hchoice as [->|[->|Hout]].
    + unfold truthy. by rewrite (bool_decide_eq_false_2 (placeholder ≠ placeholder)),
        andb_false_r by (intros H; by apply H).
    + unfold truthy. by rewrite (bool_decide_eq_false_2 ("" ≠ "")) by (intros H; by apply H).
    + apply elem_of_cons in Hin as [->|Hin]; [|done].
      unfold truthy. by rewrite (bool_decide_eq_false_2 (placeholder ≠ placeholder)),
        andb_false_r by (intros H; by apply H).
  - cbn [head]. unfold truthy.
    by rewrite (bool_decide_eq_false_2 (placeholder ≠ placeholder)), andb_false_r
      by (intros H; by apply H).
Qed.

(** X9 (lines 120-136): an item without transactions whose safety stock is
    not negative is always shown with the shortage banner, a safety stock of
    zero included. *)
Theorem empty_history_is_a_shortage (inp : Inputs) (inventory_df : loc) (w : World)
    (code : string) (info : ItemInfo) (df : list Transaction) :
  viewing inp inventory_df w code info (mkFrame df None) →
  filter_item code df = [] →
  0 ≤ safety_stock info →
  (main_view inp inventory_df w).2
  = [ Metrics 0 (safety_stock info) (- safety_stock info);
      ErrorShortage 0 (safety_stock info); WarningNoHistory ].
Proof.
  intros Hview Hnone Hsafe.
  assert (Hrows : item_transactions code df = [])
    by (unfold item_transactions; rewrite Hnone; by apply sort_values_nil_iff).
  rewrite (main_view_run _ _ _ _ _ _ Hview), item_rows_plain, Hrows.
  unfold view_page, is_shortage, available_stock. cbn.
  rewrite bool_decide_eq_true_2 by lia. reflexivity.
Qed.

(** * Further properties of the sidebar *)

(** The ways through lines 64-96 on an initialised session. *)
Lemma sidebar_run (inp : Inputs) (w : World) (d : list (string * ItemInfo)) :
  master_data w = Some d →
  sidebar inp w
  = match selectbox (map fst d) (sidebar_choice inp) with
    | None => (Return tt, w, [])
    | Some code =>
        if bool_decide (code ≠ "") then
          match dict_getitem d code with
          | None => (Raise (KeyError code), w, [])
          | Some info =>
              if decide (safety_stock info < 0)
              then (Raise StreamlitAPIException, w, [])
              else if decide (js_max_safe < safety_stock info)
              then (Raise StreamlitAPIException, w, [])
              else if save_clicked inp
                   then save_button_handler inp code
                          (entered_value inp (safety_stock info)) w
                   else (Return tt, w, [])
          end
        else (Return tt, w, [])
    end.
Proof.
  intros Hd. unfold sidebar.
  rewrite (bind_silent _ _ _ _ _ (session_master_data_run w d Hd)).
  destruct (selectbox (map fst d) (sidebar_choice inp)) as [code|]; [|done].
  unfold truthy. case_bool_decide as Hne; [|done]. unfold when at 1.
  rewrite (bind_silent _ _ _ _ _ (session_master_data_run w d Hd)).
  unfold getitem. destruct (dict_getitem d code) as [info|].
  - rewrite bind_mret. unfold number_input, entered_value.
    case_decide; [by apply bind_raise|].
    case_decide; [by apply bind_raise|].
    destruct (typed_safety_stock inp) as [v|]; [case_decide|];
      rewrite bind_mret; unfold when; by destruct (save_clicked inp).
  - by apply bind_raise.
Qed.

Lemma sidebar_uninitialised (inp : Inputs) (w : World) :
  master_data w = None → sidebar inp w = (Raise AttributeError, w, []).
Proof.
  intros Hd. apply bind_raise. unfold session_master_data.
  rewrite (bind_silent get_world _ w w w) by done. by rewrite Hd.
Qed.

(** Either the sidebar leaves the world alone and draws nothing, or it runs
    the save handler on a key of the Item Master with a value that is not
    negative. *)
Lemma sidebar_cases (inp : Inputs) (w : World) :
  (∃ r, sidebar inp w = (r, w, []))
  ∨ (∃ code value info,
       sidebar inp w = save_button_handler inp code value w
       ∧ save_clicked inp = true
       ∧ item_master_lookup w code = Some info
       ∧ 0 ≤ value).
Proof.
  destruct (master_data w) as [d|] eqn:Hd; cycle 1.
  { left. eexists. by apply sidebar_uninitialised. }
  rewrite (sidebar_run inp w d Hd).
  destruct (selectbox (map fst d) (sidebar_choice inp)) as [code|]; [|by left; eexists].
  case_bool_decide; [|by left; eexists].
  destruct (dict_getitem d code) as [info|] eqn:Hget; [|by left; eexists].
  case_decide as Hneg; [by left; eexists|].
  case_decide as Hbig; [by left; eexists|].
  destruct (save_clicked inp); [|by left; eexists].
  right. exists code, (entered_value inp (safety_stock info)), info.
  split_and!; try done.
  - unfold item_master_lookup. by rewrite Hd.
  - unfold entered_value. destruct (typed_safety_stock inp); [case_decide|]; lia.
Qed.

(** X10 (lines 64-96): without a click on the save button the sidebar draws
    no message and changes nothing, whatever is selected or typed. *)
Theorem sidebar_without_click_changes_nothing (inp : Inputs) (w : World) :
  save_clicked inp = false →
  ∃ r : Outcome unit, sidebar inp w = (r, w, []).
Proof.
  intros Hclick. destruct (sidebar_cases inp w) as [Hsame|(c & v & i & _ & Hc & _)].
  - exact Hsame.
  - congruence.
Qed.

Lemma dict_set_safety_nonneg (d d' : list (string * ItemInfo)) (key : string) (value : Z) :
  0 ≤ value →
  Forall (λ p, 0 ≤ safety_stock p.2) d →
  dict_set_safety d key value = Some d' →
  Forall (λ p, 0 ≤ safety_stock p.2) d'.
Proof.
  intros Hv. revert d'. induction d as [|[k x] d IH]; intros d' Hd; simpl; [done|].
  apply Forall_cons in Hd as [Hx Hd]. case_decide.
  - intros [= <-]. by apply Forall_cons.
  - destruct (dict_set_safety d key value) as [d0|]; [|done].
    intros [= <-]. apply Forall_cons. split; [done|]. by apply IH.
Qed.

(** X11 (lines 75-96, with [min_value=0]): if no safety stock is negative,
    in the stored table and in the session, then none is negative after the
    sidebar has run, whatever was typed and whether or not the write went
    through. *)
Theorem sidebar_keeps_safety_stock_nonnegative (inp : Inputs) (w : World) :
  nonneg_safety w → nonneg_safety (sidebar inp w).1.2.
Proof.
  intros [Hdb Hmem].
  destruct (sidebar_cases inp w) as [[r ->]|(code & value & info & -> & _ & _ & Hv)];
    [done|].
  rewrite save_button_handler_run.
  assert (Hdb' : Forall (λ r, 0 ≤ master_safety r)
                   (map (update_row code value) (db_master w))).
  { apply Forall_forall. intros r Hr.
    apply list_elem_of_fmap in Hr as (r0 & -> & Hr0).
    unfold update_row. case_decide; [done|].
    by apply (proj1 (Forall_forall _ _) Hdb). }
  destruct (db_write_ok inp); [|done].
  destruct (master_data w) as [d|] eqn:Hd; cbn [fst snd].
  - destruct (dict_set_safety d code value) as [d'|] eqn:Hset; cbn [fst snd].
    + split; [done|]. intros d0 [= <-].
      eapply dict_set_safety_nonneg; [exact Hv|by apply Hmem|exact Hset].
    + split; [done|]. cbn. by rewrite Hd.
  - split; [done|]. cbn. by rewrite Hd.
Qed.

Lemma dict_getitem_Forall (P : ItemInfo → Prop) (d : list (string * ItemInfo))
    (key : string) (info : ItemInfo) :
  Forall (λ p, P p.2) d → dict_getitem d key = Some info → P info.
Proof.
  induction d as [|[k x] d IH]; intros Hall; simpl; [done|].
  apply Forall_cons in Hall as [Hx Hrest]. case_decide; [by intros [= <-]|].
  by apply IH.
Qed.

(** X12 (lines 64-96): on an initialised session whose safety stocks are
    values the number input accepts as a default (from 0 to 2^53 - 1) the
    sidebar always returns normally: the key it looks up at lines 72, 76 and
    90 is one of the keys it offered, the widget of line 75 takes the
    default, and what the database raises is caught at line 95. *)
Theorem sidebar_never_raises (inp : Inputs) (w : World) (d : list (string * ItemInfo)) :
  master_data w = Some d →
  Forall (λ p, accepted_default (safety_stock p.2)) d →
  (sidebar inp w).1.1 = Return tt.
Proof.
  intros Hd Hsafe. rewrite (sidebar_run inp w d Hd).
  destruct (selectbox (map fst d) (sidebar_choice inp)) as [code|] eqn:Hsel; [|done].
  case_bool_decide; [|done].
  destruct (sidebar_selects_known_item d _ code Hsel) as [info Hget]. rewrite Hget.
  pose proof (dict_getitem_Forall (λ i, accepted_default (safety_stock i))
                d code info Hsafe Hget) as [Hlow Hhigh].
  rewrite !decide_False by lia.
  destruct (save_clicked inp); [|done].
  rewrite save_button_handler_run.
  destruct (db_write_ok inp); [|done]. rewrite Hd.
  by destruct (dict_set_safety d code _).
Qed.

(** * Further properties of a run of the script *)

Lemma session_init_initialised (inp : Inputs) (w : World) (d : list (string * ItemInfo)) :
  master_data w = Some d → session_init inp w = (Return tt, w, []).
Proof.
  intros Hd. unfold session_init.
  rewrite (bind_silent get_world _ w w w) by done. by rewrite Hd.
Qed.

Lemma query_master_raise (inp : Inputs) (w : World) :
  master_query_memo w = None ∨ master_memo_expired inp = true →
  master_query_ok inp = false →
  query_master inp w = (Raise DbError, w, []).
Proof.
  intros Hmemo Hdown. unfold query_master.
  rewrite (bind_silent get_world _ w w w) by done. rewrite Hdown.
  destruct (master_query_memo w) as [memo|]; [|done].
  destruct Hmemo as [Hnone|Hexpired]; [done|]. by rewrite Hexpired.
Qed.

Lemma query_master_ask (inp : Inputs) (w : World) :
  master_query_memo w = None ∨ master_memo_expired inp = true →
  master_query_ok inp = true →
  query_master inp w
  = (Return (db_master w), set_master_query_memo (Some (db_master w)) w, []).
Proof.
  intros Hmemo Hup. unfold query_master.
  rewrite (bind_silent get_world _ w w w) by done. rewrite Hup.
  assert (Hask : (modify_world (set_master_query_memo (Some (db_master w)));;
                  mret (db_master w)) w
                 = (Return (db_master w),
                    set_master_query_memo (Some (db_master w)) w, []))
    by (by rewrite (bind_silent _ _ w _ tt eq_refl)).
  destruct (master_query_memo w) as [memo|]; [|done].
  destruct Hmemo as [Hnone|Hexpired]; [done|]. by rewrite Hexpired.
Qed.

Lemma query_inventory_raise (inp : Inputs) (w : World) :
  inventory_query_memo w = None ∨ inventory_memo_expired inp = true →
  inventory_query_ok inp = false →
  query_inventory inp w = (Raise DbError, w, []).
Proof.
  intros Hmemo Hdown. unfold query_inventory.
  rewrite (bind_silent get_world _ w w w) by done. rewrite Hdown.
  destruct (inventory_query_memo w) as [memo|]; [|done].
  destruct Hmemo as [Hnone|Hexpired]; [done|]. by rewrite Hexpired.
Qed.

(** A bulk load without a usable memo stops where its body stops. *)
Lemma load_data_from_db_raise (inp : Inputs) (w w1 : World) (e : Exn) :
  cache w = None ∨ cache_expired inp = true →
  query_db inp w = (Raise e, w1, []) →
  load_data_from_db inp w = (Raise e, w1, []).
Proof.
  intros Hmemo Hbody. unfold load_data_from_db.
  rewrite (bind_silent get_world _ w w w) by done.
  assert (Hmiss : (query_db inp ≫= λ loaded,
                     modify_world (set_cache (Some loaded));; mret loaded) w
                  = (Raise e, w1, [])) by (by apply bind_raise).
  destruct (cache w) as [memo|]; [|done].
  destruct Hmemo as [Hnone|Hexpired]; [done|]. by rewrite Hexpired.
Qed.

Lemma script_load_raise (inp : Inputs) (w w1 : World) (e : Exn) :
  connection_ok inp = true →
  master_data w = None →
  load_data_from_db inp w = (Raise e, w1, []) →
  script inp w = (Return tt, w1, [ErrorLoad e; InfoSecrets]).
Proof.
  intros Hconn Hd Hload. unfold script, try_except. rewrite Hconn.
  assert (Hinit : session_init inp w = (Raise e, w1, [])).
  { unfold session_init. rewrite (bind_silent get_world _ w w w) by done.
    rewrite Hd. by apply bind_raise. }
  by rewrite (bind_raise _ _ _ _ _ _ Hinit).
Qed.

(** When line 18 cannot set up the connection, the run ends there with the
    exception, before anything is drawn or changed. *)
Lemma script_without_connection (inp : Inputs) (w : World) :
  connection_ok inp = false → script inp w = (Raise StreamlitAPIException, w, []).
Proof. intros Hconn. unfold script. by rewrite Hconn. Qed.

(** X13 (lines 33-55, 153-155): on a session that is not initialised, with
    the connection set up and no usable memo of the bulk load or of the
    master query, a run that cannot get the master table from the database
    draws the load error with the hint about the secrets and leaves
    everything as it was.  A run that gets the master table but cannot get
    the transactions, for which there is no usable memo either, draws the
    same and leaves everything as it was but for the master table, which
    stays memoised.  In both cases the session stays uninitialised, so the
    next run tries again. *)
Theorem script_load_failure (inp : Inputs) (w : World) :
  connection_ok inp = true →
  master_data w = None →
  cache w = None ∨ cache_expired inp = true →
  master_query_memo w = None ∨ master_memo_expired inp = true →
  (master_query_ok inp = false →
   script inp w = (Return tt, w, [ErrorLoad DbError; InfoSecrets]))
  ∧ (master_query_ok inp = true →
     inventory_query_memo w = None ∨ inventory_memo_expired inp = true →
     inventory_query_ok inp = false →
     script inp w
     = (Return tt, set_master_query_memo (Some (db_master w)) w,
        [ErrorLoad DbError; InfoSecrets])).
Proof.
  intros Hconn Hd Hmemo Hmaster. split.
  - intros Hdown. apply script_load_raise; try done.
    apply load_data_from_db_raise; [done|]. unfold query_db.
    apply bind_raise. by apply query_master_raise.
  - intros Hup Hinv Hdown. apply script_load_raise; try done.
    apply load_data_from_db_raise; [done|]. unfold query_db.
    rewrite (bind_silent _ _ _ _ _ (query_master_ask inp w Hmaster Hup)).
    apply bind_raise. by apply query_inventory_raise.
Qed.

Lemma dict_of_rows_lookup (master_df : list MasterRow) (r : MasterRow) :
  NoDup (map master_code master_df) →
  r ∈ master_df →
  dict_getitem (dict_of_rows master_df) (master_code r)
  = Some (mkItemInfo (master_name r) (master_safety r)).
Proof.
  induction master_df as [|r0 rows IH]; intros Hnd Hr; simpl.
  { by apply elem_of_nil in Hr. }
  apply NoDup_cons in Hnd as [Hfresh Hnd].
  apply elem_of_cons in Hr as [->|Hr].
  - by rewrite decide_True.
  - rewrite decide_False; [by apply IH|].
    intros Heq. apply Hfresh. rewrite Heq.
    change (map master_code rows) with (master_code <$> rows).
    by apply list_elem_of_fmap_2.
Qed.

Lemma dict_of_rows_lookup_None (master_df : list MasterRow) (code : string) :
  code ∉ map master_code master_df →
  dict_getitem (dict_of_rows master_df) code = None.
Proof.
  induction master_df as [|r0 rows IH]; intros Hout; simpl; [done|].
  apply not_elem_of_cons in Hout as [Hne Hout].
  rewrite decide_False by done. by apply IH.
Qed.

(** X14 (lines 51-55): when a session is initialised from a bulk load whose
    master table has no repeated item code, the Item Master of the session
    has one entry per row, in the order of the rows: looking up the code of a
    row gives the name and safety stock of that row, looking up any other
    code gives nothing; and the session refers to a new frame holding the
    loaded transactions, without the column 잔량. *)
Theorem session_init_builds_item_master (inp : Inputs) (w w1 : World)
    (master_df : list MasterRow) (inventory_df : list Transaction) :
  master_data w = None →
  load_data_from_db inp w = (Return (master_df, inventory_df), w1, []) →
  NoDup (map master_code master_df) →
  let w' := (session_init inp w).1.2 in
  (session_init inp w).1.1 = Return tt
  ∧ map fst <$> master_data w' = Some (map master_code master_df)
  ∧ (∀ r : MasterRow, r ∈ master_df →
       item_master_lookup w' (master_code r)
       = Some (mkItemInfo (master_name r) (master_safety r)))
  ∧ (∀ code : string, code ∉ map master_code master_df →
       item_master_lookup w' code = None)
  ∧ inventory_data w' = Some (length (heap w1))
  ∧ heap w' = heap w1 ++ [InventoryFrame (mkFrame inventory_df None)].
Proof.
  intros Hd Hload Hnd w'. subst w'.
  assert (Hrun : session_init inp w
            = (Return tt,
               set_inventory_data (Some (length (heap w1)))
                 (set_heap (heap w1 ++ [InventoryFrame (mkFrame inventory_df None)])
                    (set_master_data (Some (dict_of_rows master_df)) w1)), [])).
  { unfold session_init. rewrite (bind_silent get_world _ w w w) by done.
    rewrite Hd. rewrite (bind_silent _ _ _ _ _ Hload).
    unfold to_dict_index. cbn [fst snd]. rewrite decide_True by done.
    rewrite bind_mret.
    rewrite (bind_silent _ _ w1 (set_master_data (Some (dict_of_rows master_df)) w1) tt)
      by done.
    by rewrite (bind_silent _ _ _ _ _ eq_refl). }
  rewrite Hrun. cbn [fst snd]. cbn. unfold item_master_lookup. cbn.
  split_and!; try done.
  - f_equal. unfold dict_of_rows. rewrite map_map. by apply map_ext.
  - intros r Hr. by apply dict_of_rows_lookup.
  - apply dict_of_rows_lookup_None.
Qed.

Lemma bind_run {A B} (m : M A) (k : A → M B) (w w1 w2 : World) (a : A)
    (r : Outcome B) (out1 out2 : list Element) :
  m w = (Return a, w1, out1) → k a w1 = (r, w2, out2) →
  (m ≫= k) w = (r, w2, out1 ++ out2).
Proof. intros Hm Hk. unfold mbind, M_bind. by rewrite Hm, Hk. Qed.

(** X15 (lines 18-151): in one run on an initialised session, a safety
    stock typed and saved in the sidebar for the item that is also selected
    on the main screen is the one the main screen computes with, provided the
    stored and the typed value are values the number input accepts (from 0 to
    2^53 - 1): the page is the success message followed by the metrics,
    banner and table for the saved value. *)
Theorem script_shows_saved_safety_stock (inp : Inputs) (w : World)
    (d : list (string * ItemInfo)) (l : loc) (df : list Transaction)
    (code : string) (info : ItemInfo) (value : Z) :
  connection_ok inp = true →
  master_data w = Some d →
  inventory_data w = Some l →
  heap w !! l = Some (InventoryFrame (mkFrame df None)) →
  dict_getitem d code = Some info →
  accepted_default (safety_stock info) →
  code ≠ "" → code ≠ placeholder →
  sidebar_choice inp = code → main_choice inp = code →
  typed_safety_stock inp = Some value → accepted_default value →
  save_clicked inp = true → db_write_ok inp = true →
  (script inp w).2
  = Success code value :: view_page value (item_transactions code df).
Proof.
  intros Hconn Hd Hl Hf Hget [Hlow Hhigh] Hne Hph Hside Hmain Htyped Hv Hclick Hok.
  destruct (dict_set_safety_is_Some d code value info Hget) as [d' Hset].
  destruct (dict_set_safety_Some _ _ _ _ Hset) as (info0 & Hget0 & Hnew & _).
  set (w' := clear_cache_data (set_master_data (Some d') (committed code value w))).
  assert (Hsidebar : sidebar inp w = (Return tt, w', [Success code value])).
  { rewrite (sidebar_run inp w d Hd). unfold selectbox. rewrite Hside.
    rewrite decide_True by eauto using dict_getitem_elem_of.
    rewrite bool_decide_eq_true_2 by done. rewrite Hget.
    rewrite !decide_False by lia. rewrite Hclick.
    unfold entered_value. rewrite Htyped, decide_True by done.
    by rewrite save_button_handler_run, Hok, Hd, Hset. }
  assert (Hview : viewing inp l w' code (mkItemInfo (item_name info0) value)
                    (mkFrame df None)).
  { unfold viewing. split_and!; try done. by exists d'. }
  unfold script, try_except. rewrite Hconn.
  erewrite (bind_run (session_init inp)); cycle 1.
  { by eapply session_init_initialised. }
  { rewrite (bind_silent _ _ _ _ _ (session_master_data_run w d Hd)).
    erewrite (bind_silent session_inventory_data); cycle 1.
    { unfold session_inventory_data.
      rewrite (bind_silent get_world _ w w w) by done. by rewrite Hl. }
    eapply bind_run; [exact Hsidebar|].
    rewrite (main_view_run _ _ _ _ _ _ Hview), item_rows_plain. reflexivity. }
  reflexivity.
Qed.

(** ** What no run undoes *)

Global Instance store_kept_refl : Reflexive store_kept.
Proof. intros w. by split. Qed.

Global Instance store_kept_trans : Transitive store_kept.
Proof.
  intros w1 w2 w3 [Hdb12 Hh12] [Hdb23 Hh23]. split; [congruence|]. eauto.
Qed.

Global Instance session_kept_refl : Reflexive session_kept.
Proof. intros w. split_and!; try done. intros d Hd. eauto. Qed.

Global Instance session_kept_trans : Transitive session_kept.
Proof.
  intros w1 w2 w3 (Hdb12 & Hh12 & Hs12) (Hdb23 & Hh23 & Hs23).
  split_and!; [congruence|eauto|].
  intros d Hd. destruct (Hs12 d Hd) as (Hi12 & d2 & Hd2 & Hn12).
  destruct (Hs23 d2 Hd2) as (Hi23 & d3 & Hd3 & Hn23).
  split; [congruence|]. exists d3. split; [done|congruence].
Qed.

Section keeps.
Context (R : World → World → Prop) `{!Reflexive R, !Transitive R}.

Lemma keeps_bind {A B} (m : M A) (k : A → M B) :
  keeps R m → (∀ a, keeps R (k a)) → keeps R (m ≫= k).
Proof.
  intros Hm Hk w. specialize (Hm w). unfold mbind, M_bind.
  destruct (m w) as [[[a|e] w1] out1]; [|done].
  specialize (Hk a w1). destruct (k a w1) as [[r w2] out2].
  cbn in *. by transitivity w1.
Qed.

Lemma keeps_try_except (body : M unit) (handler : Exn → M unit) :
  keeps R body → (∀ e, keeps R (handler e)) → keeps R (try_except body handler).
Proof.
  intros Hm Hk w. specialize (Hm w). unfold try_except.
  destruct (body w) as [[[a|e] w1] out1]; [done|].
  specialize (Hk e w1). destruct (handler e w1) as [[r w2] out2].
  cbn in *. by transitivity w1.
Qed.

Lemma keeps_silent {A} (m : M A) :
  (∀ w, ∃ r out, m w = (r, w, out)) → keeps R m.
Proof. intros Hm w. destruct (Hm w) as (r & out & ->). reflexivity. Qed.

Lemma keeps_modify (f : World → World) :
  (∀ w, R w (f w)) → keeps R (modify_world f).
Proof. intros Hf w. apply Hf. Qed.

End keeps.

Lemma load_data_from_db_keeps_store (inp : Inputs) :
  keeps store_kept (load_data_from_db inp).
Proof.
  assert (Hqm : keeps store_kept (query_master inp)).
  { unfold query_master.
    apply keeps_bind; try apply _; [by apply keeps_silent; eauto|]. intros w0.
    assert (keeps store_kept
              (if master_query_ok inp
               then modify_world (set_master_query_memo (Some (db_master w0)));;
                    mret (db_master w0)
               else raise DbError)).
    { destruct (master_query_ok inp); [|by apply keeps_silent; eauto].
      apply keeps_bind; try apply _; [by apply keeps_modify|].
      intros _. by apply keeps_silent; eauto. }
    destruct (master_query_memo w0); [destruct (master_memo_expired inp)|];
      first [done | by apply keeps_silent; eauto]. }
  assert (Hqi : keeps store_kept (query_inventory inp)).
  { unfold query_inventory.
    apply keeps_bind; try apply _; [by apply keeps_silent; eauto|]. intros w0.
    assert (keeps store_kept
              (if inventory_query_ok inp
               then modify_world (set_inventory_query_memo (Some (db_inventory w0)));;
                    mret (db_inventory w0)
               else raise DbError)).
    { destruct (inventory_query_ok inp); [|by apply keeps_silent; eauto].
      apply keeps_bind; try apply _; [by apply keeps_modify|].
      intros _. by apply keeps_silent; eauto. }
    destruct (inventory_query_memo w0); [destruct (inventory_memo_expired inp)|];
      first [done | by apply keeps_silent; eauto]. }
  assert (Hq : keeps store_kept (query_db inp)).
  { unfold query_db. apply keeps_bind; try apply _; [done|]. intros m.
    apply keeps_bind; try apply _; [done|]. intros i.
    by apply keeps_silent; eauto. }
  unfold load_data_from_db.
  apply keeps_bind; try apply _; [by apply keeps_silent; eauto|]. intros w0.
  assert (keeps store_kept
            (query_db inp ≫= λ loaded,
               modify_world (set_cache (Some loaded));; mret loaded)).
  { apply keeps_bind; try apply _; [done|]. intros loaded.
    apply keeps_bind; try apply _; [by apply keeps_modify|].
    intros _. by apply keeps_silent; eauto. }
  destruct (cache w0); [destruct (cache_expired inp)|];
    first [done | by apply keeps_silent; eauto].
Qed.

Lemma session_init_keeps (inp : Inputs) : keeps session_kept (session_init inp).
Proof.
  intros w. destruct (master_data w) as [d|] eqn:Hd.
  { rewrite (session_init_initialised inp w d Hd). reflexivity. }
  assert (Hstore : store_kept w (session_init inp w).1.2).
  { unfold session_init. rewrite (bind_silent get_world _ w w w) by done.
    rewrite Hd. clear Hd. revert w.
    apply (keeps_bind store_kept); [apply load_data_from_db_keeps_store|].
    intros loaded. apply (keeps_bind store_kept).
    { unfold to_dict_index. case_decide; by apply keeps_silent; eauto. }
    intros d0. apply (keeps_bind store_kept); [by apply keeps_modify|].
    intros _. apply (keeps_bind store_kept).
    { intros w. split; [done|]. intros l o Hl. cbn. by apply lookup_app_l_Some. }
    intros l. by apply keeps_modify. }
  destruct Hstore as [Hdb Hheap]. split_and!; [done..|]. intros d0 Hd0. congruence.
Qed.

Lemma sidebar_keeps (inp : Inputs) : keeps session_kept (sidebar inp).
Proof.
  intros w.
  destruct (sidebar_cases inp w) as [[r ->]|(code & value & info & -> & _)];
    [reflexivity|].
  rewrite save_button_handler_run.
  destruct (db_write_ok inp); [|reflexivity].
  destruct (master_data w) as [d|] eqn:Hd; cbn [fst snd].
  - destruct (dict_set_safety d code value) as [d'|] eqn:Hset; cbn [fst snd].
    + split_and!; try done. intros d0 Hd0. simplify_eq. split; [done|].
      exists d'. split; [done|]. by eapply dict_set_safety_names.
    + split_and!; try done. intros d0 Hd0. simplify_eq. split; [done|].
      eexists. split; [|done]. cbn. exact Hd.
  - split_and!; [done..|]. intros d0 Hd0. congruence.
Qed.

Lemma main_view_keeps (inp : Inputs) (inventory_df : loc) :
  keeps session_kept (main_view inp inventory_df).
Proof.
  intros w. destruct (main_view_cases inp inventory_df w)
    as [(code & info & f & Hview)|(r & out & ->)]; [|reflexivity].
  rewrite (main_view_run _ _ _ _ _ _ Hview). split_and!; try done.
  - intros l o Hl. cbn. by apply lookup_app_l_Some.
  - intros d Hd. split; [done|]. by exists d.
Qed.

(** X16 (lines 18-155): no run of the script, whatever the inputs and the
    outcome, changes the stored transactions or an object that already
    exists; and on an initialised session every run keeps the reference to
    the transaction frame and the item codes of the Item Master with their
    order and names.  Only safety stocks change. *)
Theorem script_keeps_the_session (inp : Inputs) (w : World) :
  session_kept w (script inp w).1.2.
Proof.
  revert w. change (keeps session_kept (script inp)). unfold script.
  destruct (connection_ok inp); [|by apply keeps_silent; try apply _; eauto].
  apply keeps_try_except; try apply _.
  - apply keeps_bind; try apply _; [apply session_init_keeps|]. intros _.
    apply keeps_bind; try apply _.
    { apply keeps_silent; try apply _. intros w. unfold session_master_data.
      rewrite (bind_silent get_world _ w w w) by done.
      destruct (master_data w); by eauto. }
    intros _. apply keeps_bind; try apply _.
    { apply keeps_silent; try apply _. intros w. unfold session_inventory_data.
      rewrite (bind_silent get_world _ w w w) by done.
      destruct (inventory_data w); by eauto. }
    intros l. apply keeps_bind; try apply _; [apply sidebar_keeps|].
    intros _. apply main_view_keeps.
  - intros e. apply keeps_silent; try apply _. intros w. by eauto.
Qed.

End app.

(** * A sort that meets the contract *)

Section stable_argsort.

Lemma insert_by_date_Permutation (p : nat * Date) (l : list (nat * Date)) :
  insert_by_date p l ≡ₚ p :: l.
Proof.
  induction l as [|q l IH]; simpl; [done|].
  case_decide; [done|]. rewrite IH. apply Permutation_swap.
Qed.

Lemma insertion_Permutation (l : list (nat * Date)) :
  foldr insert_by_date [] l ≡ₚ l.
Proof.
  induction l as [|p l IH]; simpl; [done|].
  by rewrite insert_by_date_Permutation, IH.
Qed.

Lemma insert_by_date_HdRel (p q : nat * Date) (l : list (nat * Date)) :
  date_le q.2 p.2 →
  HdRel (λ a b, date_le a.2 b.2) q l →
  HdRel (λ a b, date_le a.2 b.2) q (insert_by_date p l).
Proof.
  intros Hqp Hhd. destruct l as [|r l]; simpl; [by constructor|].
  case_decide; constructor; [done|]. by inversion Hhd.
Qed.

Lemma insert_by_date_Sorted (p : nat * Date) (l : list (nat * Date)) :
  Sorted (λ a b, date_le a.2 b.2) l →
  Sorted (λ a b, date_le a.2 b.2) (insert_by_date p l).
Proof.
  induction l as [|q l IH]; intros Hs; simpl.
  - by repeat constructor.
  - inversion Hs as [|? ? Hrest Hhd]; subst. case_decide as Hle.
    + constructor; [done|]. by constructor.
    + constructor; [by apply IH|]. apply insert_by_date_HdRel; [|done].
      destruct (date_le_total p.2 q.2); done.
Qed.

Lemma insertion_Sorted (l : list (nat * Date)) :
  Sorted (λ a b, date_le a.2 b.2) (foldr insert_by_date [] l).
Proof.
  induction l as [|p l IH]; simpl; [constructor|]. by apply insert_by_date_Sorted.
Qed.

Lemma indexed_keys_lookup (keys : list Date) :
  Forall (λ p, keys !! p.1 = Some p.2) (zip (seq 0 (length keys)) keys).
Proof.
  apply Forall_forall. intros [i k] Hin.
  apply list_elem_of_lookup in Hin as [j Hj].
  apply lookup_zip_with_Some in Hj as (i' & k' & [= <- <-] & Hi & Hk).
  apply lookup_seq in Hi as [-> _]. done.
Qed.

Lemma take_rows_indexed (keys : list Date) (sorted : list (nat * Date)) :
  Forall (λ p, keys !! p.1 = Some p.2) sorted →
  take_rows sorted.*1 keys = sorted.*2.
Proof.
  unfold take_rows. induction 1 as [|[i k] sorted Hp _ IH]; csimpl; [done|].
  simpl in Hp. by rewrite Hp, IH.
Qed.

Lemma stable_argsort_Permutation (keys : list Date) :
  stable_argsort keys ≡ₚ seq 0 (length keys).
Proof.
  unfold stable_argsort. rewrite insertion_Permutation.
  apply reflexive_eq, fst_zip. by rewrite length_seq.
Qed.

Lemma stable_argsort_Sorted (keys : list Date) :
  Sorted date_le (take_rows (stable_argsort keys) keys).
Proof.
  unfold stable_argsort. rewrite take_rows_indexed.
  - eapply Sorted_fmap; [|apply insertion_Sorted]. done.
  - rewrite insertion_Permutation. apply indexed_keys_lookup.
Qed.

End stable_argsort.

Global Instance stable_numpy_sort : ArgSort := {|
  argsort := stable_argsort;
  argsort_Permutation := stable_argsort_Permutation;
  argsort_Sorted := stable_argsort_Sorted
|}.

(** * The model on concrete inputs *)

Example strftime_example : strftime (mkDate 2024 1 5 0) = "2024-01-05".
Proof. vm_compute. reflexivity. Qed.

Example strftime_pads_the_year : strftime (mkDate 999 3 7 0) = "0999-03-07".
Proof. vm_compute. reflexivity. Qed.

(** Rows of one timestamp stay in the order of the table, and rows of one
    day are ordered by their time. *)
Example same_date_rows_keep_their_order :
  running_balance
    (item_transactions "P-1"
       [ mkTransaction "P-1" (mkDate 2024 1 1 0) "t1" 10 0;
         mkTransaction "P-1" (mkDate 2024 1 1 0) "t2" 0 4;
         mkTransaction "P-1" (mkDate 2024 1 1 0) "t3" 7 0 ])
  = [10; 6; 13]
  ∧ map description
      (item_transactions "P-1"
         [ mkTransaction "P-1" (mkDate 2024 1 1 900) "late" 1 0;
           mkTransaction "P-1" (mkDate 2024 1 1 30) "early" 2 0 ])
    = ["early"; "late"].
Proof. split; vm_compute; reflexivity. Qed.

Lemma demo_world_is_initialised :
  script (demo_inputs "") fresh_world = (Return tt, demo_world, [InfoSelectItem]).
Proof. vm_compute. reflexivity. Qed.

Lemma demo_viewing (world : World) (table : list Transaction) (code : string)
    (info : ItemInfo) :
  code ≠ "" → code ≠ placeholder →
  item_master_lookup world code = Some info →
  heap world !! 0%nat = Some (InventoryFrame (mkFrame table None)) →
  viewing (demo_inputs code) 0%nat world code info (mkFrame table None).
Proof.
  intros Hne Hph Hinfo Hheap. unfold viewing. split_and!; try done.
  unfold item_master_lookup in Hinfo.
  destruct (master_data world) as [d|]; [|done]. by exists d.
Qed.

Lemma demo_world_nonneg : nonneg_safety demo_world.
Proof.
  split.
  - cbn. repeat constructor; done.
  - intros d [= <-]. repeat constructor; done.
Qed.

Lemma demo_dict_accepted :
  Forall (λ p : string * ItemInfo, accepted_default (safety_stock p.2)) demo_dict.
Proof. repeat constructor; done. Qed.

(** One run of the script: the value saved in the sidebar is the one the main
    screen reads (scenario of the specification, safety stock 50 -> 100). *)
Example script_save_then_view :
  (script (save_inputs true "P-1" 100) demo_world).2
  = [ Success "P-1" 100; Metrics 90 100 (-10); ErrorShortage 90 100;
      Dataframe
        [ mkDisplayRow (DateText "2024-01-01") "입고" 100 0 100;
          mkDisplayRow (DateText "2024-01-05") "출고" 0 30 70;
          mkDisplayRow (DateText "2024-01-10") "입고" 20 0 90 ] ].
Proof. vm_compute. reflexivity. Qed.

(** * The claims on concrete inputs *)

Lemma current_stock_wrapped_net_sum_any_order_witness :
  int_of (current_stock scenario) = 90
  ∧ current_stock (reverse scenario) = current_stock scenario.
Proof.
  destruct (current_stock_wrapped_net_sum_any_order scenario (reverse scenario))
    as (_ & Hexact & Hperm & _).
  - symmetry. apply reverse_Permutation.
  - split; [|exact Hperm]. rewrite Hexact; [reflexivity|].
    unfold int64_range, int64_min, int64_max. simpl. lia.
Defined.

(** C1, the claim as it stands, fails where the sums leave the signed 64-bit
    range: two receipts of 2^63 - 1 and 1 give a current stock of -2^63, not
    2^63. *)
Lemma current_stock_overflow_counterexample :
  int_of (current_stock overflow_table) = -9223372036854775808
  ∧ total inbound_qty overflow_table - total outbound_qty overflow_table
    = 9223372036854775808
  ∧ int_of (current_stock overflow_table)
    ≠ total inbound_qty overflow_table - total outbound_qty overflow_table.
Proof. split_and!; [reflexivity|reflexivity|discriminate]. Qed.

Lemma available_stock_is_wrapped_difference_witness :
  ∃ (w' : World) (rest : list Element),
    main_view (demo_inputs "P-3") 0%nat demo_world
    = (Return tt, w', Metrics 5 100 (-95) :: rest).
Proof.
  destruct (available_stock_is_wrapped_difference (demo_inputs "P-3") 0%nat demo_world
              "P-3" (mkItemInfo "와셔" 100) demo_inventory)
    as ((w' & rest & Hrun) & _).
  - by apply demo_viewing.
  - vm_compute. split; discriminate.
  - exists w', rest. exact Hrun.
Defined.

(** C2, the claim as it stands, fails for the same table with safety stock 1:
    the main screen shows current stock -2^63 and available stock 2^63 - 1,
    which is not their difference. *)
Lemma available_stock_overflow_counterexample :
  ∃ (w' : World) (rest : list Element),
    main_view (demo_inputs "P-1") 0%nat overflow_world
    = (Return tt, w',
       Metrics (-9223372036854775808) 1 9223372036854775807 :: rest)
    ∧ 9223372036854775807 ≠ -9223372036854775808 - 1.
Proof. eexists _, _. split; [vm_compute; reflexivity|discriminate]. Qed.

Lemma shortage_iff_available_nonpositive_witness :
  is_shortage (PyInt 0) = true
  ∧ (ErrorShortage 0 0 ∈ (main_view (demo_inputs "P-2") 0%nat demo_world).2
     ↔ int_of (available_stock (current_stock (item_transactions "P-2" demo_inventory)) 0)
       ≤ 0).
Proof.
  split; [reflexivity|].
  exact (proj2 shortage_iff_available_nonpositive (demo_inputs "P-2") 0%nat demo_world
           "P-2" (mkItemInfo "너트" 0) demo_inventory
           (demo_viewing demo_world demo_inventory "P-2" (mkItemInfo "너트" 0)
              ltac:(done) ltac:(done) eq_refl eq_refl)).
Defined.

Lemma running_balance_wrapped_recurrence_witness :
  running_balance scenario = [100; 70; 90]
  ∧ running_balance scenario !! 1%nat = Some (100 + 0 - 30).
Proof.
  split; [reflexivity|].
  refine (proj2 (proj2 (running_balance_wrapped_recurrence scenario) 1%nat
                   (mkTransaction "P-1" (mkDate 2024 1 5 0) "출고" 0 30) eq_refl) _).
  vm_compute. split; discriminate.
Defined.

(** C4, the claim as it stands, fails on the same table: the running balance
    after the second receipt is -2^63, not the balance before it plus 1. *)
Lemma running_balance_overflow_counterexample :
  running_balance overflow_table = [9223372036854775807; -9223372036854775808]
  ∧ balance_before overflow_table 1 + 1 - 0 = 9223372036854775808.
Proof. split; reflexivity. Qed.

Lemma last_running_balance_is_current_stock_witness :
  last (running_balance scenario) = Some (int_of (current_stock scenario)).
Proof. apply last_running_balance_is_current_stock. discriminate. Defined.

Lemma empty_history_is_a_warning_witness :
  ∃ w' : World,
    main_view (demo_inputs "P-2") 0%nat demo_world
    = (Return tt, w', [Metrics 0 0 0; ErrorShortage 0 0; WarningNoHistory]).
Proof.
  destruct (empty_history_is_a_warning (demo_inputs "P-2") 0%nat demo_world
              "P-2" (mkItemInfo "너트" 0) demo_inventory) as (_ & _ & w' & Hrun).
  - by apply demo_viewing.
  - reflexivity.
  - exists w'. exact Hrun.
Defined.

Lemma save_success_updates_master_and_clears_cache_witness :
  let w' := (save_button_handler (demo_inputs "") "P-1" 80 demo_world).1.2 in
  item_master_lookup w' "P-1" = Some (mkItemInfo "볼트" 80) ∧ cache w' = None.
Proof.
  destruct (save_success_updates_master_and_clears_cache
              (demo_inputs "") "P-1" 80 demo_world)
    as ((info & Hold & Hnew) & _ & (Hc & _) & _).
  - vm_compute. apply list_elem_of_here.
  - split; [|exact Hc]. rewrite Hnew. by injection Hold as <-.
Defined.

Lemma stale_world_has_no_row : ¬ has_row "P-1" (db_master stale_world).
Proof.
  intros (r & Hr & Hcode). cbn in Hr.
  repeat (apply elem_of_cons in Hr as [->|Hr]; [discriminate|]).
  by apply elem_of_nil in Hr.
Qed.

(** C7, the claim as it stands, fails when the row of the item is gone from
    the stored table: the sidebar saves 80 for P-1 and reports success, and
    the bulk load that follows returns a master table without P-1. *)
Lemma reload_after_save_counterexample :
  let saved := sidebar (save_inputs true "P-1" 80) stale_world in
  saved.2 = [Success "P-1" 80]
  ∧ ∃ (master_df : list MasterRow) (w'' : World),
      load_data_from_db (demo_inputs "") saved.1.2
      = (Return (master_df, demo_inventory), w'', [])
      ∧ ¬ has_row "P-1" master_df.
Proof.
  split; [vm_compute; reflexivity|].
  eexists _, _. split; [vm_compute; reflexivity|].
  exact stale_world_has_no_row.
Qed.

Lemma failed_write_changes_nothing_witness :
  save_button_handler write_fails "P-1" 80 demo_world
  = (Return tt, demo_world, [ErrorDbUpdate DbError]).
Proof. apply failed_write_changes_nothing. reflexivity. Defined.

Lemma save_for_missing_row_reports_success_witness :
  update_safety_stock_in_db (save_inputs true "P-1" 80) "P-1" 80 stale_world
  = (Return tt, stale_world, []).
Proof.
  apply (save_for_missing_row_reports_success (save_inputs true "P-1" 80) "P-1" 80
           stale_world); [reflexivity|exact stale_world_has_no_row].
Defined.

(** C9, the claim as it stands, fails for an item code without a row in the
    stored table: [update_safety_stock_in_db] returns normally, and the save
    through the sidebar reports success and changes the Item Master of the
    session. *)
Lemma save_for_missing_row_counterexample :
  let saved := sidebar (save_inputs true "P-1" 80) stale_world in
  ¬ has_row "P-1" (db_master stale_world)
  ∧ update_safety_stock_in_db (save_inputs true "P-1" 80) "P-1" 80 stale_world
    = (Return tt, stale_world, [])
  ∧ saved.1.1 = Return tt
  ∧ saved.2 = [Success "P-1" 80]
  ∧ master_data saved.1.2 ≠ master_data stale_world.
Proof.
  split_and!; [exact stale_world_has_no_row|reflexivity..|].
  vm_compute. discriminate.
Qed.

(** * The further properties on concrete inputs *)

Lemma running_balance_is_stock_of_prefix_witness :
  running_balance scenario !! 1%nat = Some (int_of (current_stock (take 2 scenario))).
Proof. apply running_balance_is_stock_of_prefix. simpl. lia. Defined.

Lemma save_touches_one_safety_stock_witness :
  db_master (save_button_handler (demo_inputs "") "P-1" 80 demo_world).1.2 !! 1%nat
  = Some (mkMasterRow "P-2" "너트" 0).
Proof.
  destruct (save_touches_one_safety_stock (demo_inputs "") "P-1" 80 demo_world)
    as (_ & _ & _ & _ & _ & Hrows & _).
  apply Hrows; [reflexivity|discriminate].
Defined.

Lemma load_within_ttl_returns_memo_witness :
  load_data_from_db offline_inputs (set_db_master [] demo_world)
  = (Return (demo_master, demo_inventory), set_db_master [] demo_world, []).
Proof.
  refine (proj2 (load_within_ttl_returns_memo (demo_inputs "") demo_world demo_world
                   (demo_master, demo_inventory) [] _) _ _ _ _); reflexivity.
Defined.

Lemma main_view_draws_the_ledger_witness :
  ∃ table : list DisplayRow,
    last (main_view (demo_inputs "P-1") 0%nat demo_world).2 = Some (Dataframe table)
    ∧ map disp_balance table = [100; 70; 90].
Proof.
  destruct (main_view_draws_the_ledger (demo_inputs "P-1") 0%nat demo_world
              "P-1" (mkItemInfo "볼트" 50) demo_inventory)
    as (table & Hlast & _ & _ & _ & _ & Hbal).
  - by apply demo_viewing.
  - discriminate.
  - exists table. split; [exact Hlast|]. rewrite Hbal. reflexivity.
Defined.

Lemma main_view_prompts_without_item_witness :
  main_view (demo_inputs "P-9") 0%nat demo_world = (Return tt, demo_world, [InfoSelectItem]).
Proof.
  eapply main_view_prompts_without_item; [reflexivity|].
  right. right. vm_compute. intros Hin.
  repeat (apply elem_of_cons in Hin as [Heq|Hin]; [discriminate|]).
  by apply elem_of_nil in Hin.
Defined.

Lemma empty_history_is_a_shortage_witness :
  (main_view (demo_inputs "P-2") 0%nat demo_world).2
  = [ Metrics 0 0 0; ErrorShortage 0 0; WarningNoHistory ].
Proof.
  apply (empty_history_is_a_shortage (demo_inputs "P-2") 0%nat demo_world
           "P-2" (mkItemInfo "너트" 0) demo_inventory).
  - by apply demo_viewing.
  - reflexivity.
  - reflexivity.
Defined.

Lemma sidebar_without_click_changes_nothing_witness :
  ∃ r : Outcome unit, sidebar (demo_inputs "P-1") demo_world = (r, demo_world, []).
Proof. apply sidebar_without_click_changes_nothing. reflexivity. Defined.

Lemma sidebar_keeps_safety_stock_nonnegative_witness :
  nonneg_safety (sidebar (save_inputs true "P-1" (-5)) demo_world).1.2.
Proof.
  apply sidebar_keeps_safety_stock_nonnegative. exact demo_world_nonneg.
Defined.

Lemma sidebar_never_raises_witness :
  (sidebar (save_inputs false "P-7" 3) demo_world).1.1 = Return tt.
Proof.
  eapply sidebar_never_raises; [reflexivity|exact demo_dict_accepted].
Defined.

Lemma script_load_failure_witness :
  script offline_inputs fresh_world
  = (Return tt, fresh_world, [ErrorLoad DbError; InfoSecrets]).
Proof.
  apply (proj1 (script_load_failure offline_inputs fresh_world
                  eq_refl eq_refl (or_introl eq_refl) (or_introl eq_refl))).
  reflexivity.
Defined.

Lemma session_init_builds_item_master_witness :
  item_master_lookup (session_init (demo_inputs "") fresh_world).1.2 "P-3"
  = Some (mkItemInfo "와셔" 100).
Proof.
  refine (proj1 (proj2 (proj2 (session_init_builds_item_master (demo_inputs "")
            fresh_world
            (mkWorld demo_master demo_inventory (Some (demo_master, demo_inventory))
                     (Some demo_master) (Some demo_inventory) None None [])
            demo_master demo_inventory _ _ _)))
          (mkMasterRow "P-3" "와셔" 100) _).
  - reflexivity.
  - reflexivity.
  - vm_compute. repeat constructor; intros Hin;
      repeat (apply elem_of_cons in Hin as [Heq|Hin]; [discriminate|]);
      by apply elem_of_nil in Hin.
  - vm_compute. do 2 apply list_elem_of_further. apply list_elem_of_here.
Defined.

Lemma script_shows_saved_safety_stock_witness :
  (script (save_inputs true "P-1" 100) demo_world).2
  = Success "P-1" 100 :: view_page 100 (item_transactions "P-1" demo_inventory).
Proof.
  eapply (script_shows_saved_safety_stock _ demo_world _ 0%nat demo_inventory
            "P-1" (mkItemInfo "볼트" 50) 100); try reflexivity; try done.
Defined.
